(** * ZIHDAWG8: a shallow embedding of the QCoDeS driver for the
      Zurich Instruments HDAWG8 arbitrary waveform generator

    The development follows [ZIHDAWG8.py].  Python strings are modelled as
    [string] (sequences of 8-bit characters, which is exact for the ASCII
    text the instrument exchanges), Python integers as [Z], doubles as
    binary64 [float], dictionaries whose order matters as association
    lists, and the parameter registry of the instrument as a [gmap].
    The vendor objects ([daq], [awg_module]), the file system and the
    clock are explicit state that every operation threads through. *)

From Stdlib Require Import ZArith Ascii String List Lia Floats DecimalString.
From stdpp Require Import gmap strings.
Import ListNotations.
Open Scope string_scope.
Set Warnings "-inexact-float".
Arguments String.append !s1 s2 : simpl nomatch.
Arguments Ascii.eqb !a !b : simpl nomatch.

(** ** Python string primitives *)

Definition is_upper (c : ascii) : bool :=
  (65 <=? nat_of_ascii c)%nat && (nat_of_ascii c <=? 90)%nat.

Definition lower_char (c : ascii) : ascii :=
  if is_upper c then ascii_of_nat (nat_of_ascii c + 32) else c.

(** [str.lower()] *)
Fixpoint lower (s : string) : string :=
  match s with
  | EmptyString => EmptyString
  | String c s' => String (lower_char c) (lower s')
  end.

(** [str.split(sep)] for a one-character separator: never returns the
    empty list, and yields an empty segment before a leading separator. *)
Fixpoint split (sep : ascii) (s : string) : list string :=
  match s with
  | EmptyString => [EmptyString]
  | String c s' =>
      if Ascii.eqb c sep then EmptyString :: split sep s'
      else match split sep s' with
           | seg :: segs => String c seg :: segs
           | [] => [String c EmptyString]
           end
  end.

(** [sep.join(l)] *)
Fixpoint join (sep : string) (l : list string) : string :=
  match l with
  | [] => EmptyString
  | [x] => x
  | x :: l' => x +:+ sep +:+ join sep l'
  end.

(** [s * n] *)
Fixpoint repeat_str (s : string) (n : nat) : string :=
  match n with
  | O => EmptyString
  | S n' => s +:+ repeat_str s n'
  end.

(** [s.startswith(p)] *)
Fixpoint startswith (p s : string) : bool :=
  match p, s with
  | EmptyString, _ => true
  | String a p', String b s' => Ascii.eqb a b && startswith p' s'
  | String _ _, EmptyString => false
  end.

(** [sub in s] for strings *)
Fixpoint contains (sub s : string) : bool :=
  startswith sub s ||
  match s with
  | EmptyString => false
  | String _ s' => contains sub s'
  end.

(** [s.replace(old, new)] for a non-empty [old]: the occurrences are
    found left to right and do not overlap.  [skip] counts the characters
    of a match that are still to be passed over. *)
Fixpoint replace_from (old new : string) (skip : nat) (s : string) : string :=
  match s with
  | EmptyString => EmptyString
  | String c s' =>
      match skip with
      | S k => replace_from old new k s'
      | O =>
          if startswith old s
          then new +:+ replace_from old new (String.length old - 1) s'
          else String c (replace_from old new 0 s')
      end
  end.

Definition replace (old new s : string) : string := replace_from old new 0 s.

(** ** Parameter names (lines 199-202) *)

Definition _generate_parameter_name (node : string) : string :=
  let values := split "/" node in
  lower (join "_" (drop 2 values)).

Definition slash_free (s : string) : Prop := contains "/" s = false.

(** ** Exceptions and results *)

Inductive exn :=
| Exception (msg : string)      (* [raise Exception(msg)] *)
| IndexError                     (* too few arguments for [str.format] *)
| ValueError (what : string)     (* [int()] of a non-number, bad format text *)
| KeyError (key : string)        (* a missing dictionary key *)
| OSError (path : string)        (* [open] failed *)
| ValidationError                (* a validator rejected the value *)
| NotSettable.                   (* the parameter has no setter *)

Inductive result (A : Type) :=
| Ok (a : A)
| Err (e : exn).
Arguments Ok {A} a.
Arguments Err {A} e.

Definition rbind {A B} (r : result A) (k : A -> result B) : result B :=
  match r with
  | Ok a => k a
  | Err e => Err e
  end.

Fixpoint rmap_all {A B} (f : A -> result B) (l : list A) : result (list B) :=
  match l with
  | [] => Ok []
  | x :: l' => rbind (f x) (fun y => rbind (rmap_all f l') (fun ys => Ok (y :: ys)))
  end.

(** ** [str.format], [str(int)], [int(str)] *)

Definition str_of_Z (z : Z) : string := NilZero.string_of_int (Z.to_int z).

(** [str.format] for templates whose fields are all the
    automatic [{}]; the arguments are given already converted by [str].
    Surplus arguments are ignored, a missing one is an [IndexError]. *)
Fixpoint format (template : string) (args : list string) : result string :=
  match template with
  | EmptyString => Ok EmptyString
  | String "{" (String "}" t) =>
      match args with
      | a :: args' => rbind (format t args') (fun r => Ok (a +:+ r))
      | [] => Err IndexError
      end
  | String "{" (String "{" t) => rbind (format t args) (fun r => Ok (String "{" r))
  | String "}" (String "}" t) => rbind (format t args) (fun r => Ok (String "}" r))
  | String "{" _ => Err (ValueError "format")
  | String "}" _ => Err (ValueError "format")
  | String c t => rbind (format t args) (fun r => Ok (String c r))
  end.

Definition is_digit (c : ascii) : bool :=
  (48 <=? nat_of_ascii c)%nat && (nat_of_ascii c <=? 57)%nat.

Definition digit_value (c : ascii) : Z := Z.of_nat (nat_of_ascii c - 48).

Definition is_space (c : ascii) : bool :=
  let n := nat_of_ascii c in
  (n =? 32)%nat || ((9 <=? n)%nat && (n <=? 13)%nat).

Fixpoint lstrip (s : string) : string :=
  match s with
  | EmptyString => EmptyString
  | String c s' => if is_space c then lstrip s' else s
  end.

Fixpoint rstrip (s : string) : string :=
  match s with
  | EmptyString => EmptyString
  | String c s' =>
      match rstrip s' with
      | EmptyString => if is_space c then EmptyString else String c EmptyString
      | r => String c r
      end
  end.

Definition strip (s : string) : string := rstrip (lstrip s).

(** Decimal digits with single underscores between them. *)
Fixpoint int_digits (acc : Z) (after_digit : bool) (s : string) : option Z :=
  match s with
  | EmptyString => if after_digit then Some acc else None
  | String c s' =>
      if is_digit c then int_digits (10 * acc + digit_value c) true s'
      else if Ascii.eqb c "_" && after_digit then int_digits acc false s'
      else None
  end.

(** [int(s)] for a string [s], base ten. *)
Definition int (s : string) : result Z :=
  let t := strip s in
  let r := match t with
           | String "-" d => option_map Z.opp (int_digits 0 false d)
           | String "+" d => int_digits 0 false d
           | _ => int_digits 0 false t
           end in
  match r with
  | Some z => Ok z
  | None => Err (ValueError s)
  end.

(** ** [textwrap.dedent] *)

Definition nl : string := String "010" EmptyString.
Definition dq : string := String "034" EmptyString.

Definition is_blank (c : ascii) : bool := Ascii.eqb c " " || Ascii.eqb c "009".

Fixpoint all_blank (s : string) : bool :=
  match s with
  | EmptyString => true
  | String c s' => is_blank c && all_blank s'
  end.

Fixpoint leading_blank (s : string) : string :=
  match s with
  | EmptyString => EmptyString
  | String c s' => if is_blank c then String c (leading_blank s') else EmptyString
  end.

Fixpoint common_prefix (a b : string) : string :=
  match a, b with
  | String x a', String y b' =>
      if Ascii.eqb x y then String x (common_prefix a' b') else EmptyString
  | _, _ => EmptyString
  end.

Fixpoint string_drop (n : nat) (s : string) : string :=
  match n, s with
  | S n', String _ s' => string_drop n' s'
  | _, _ => s
  end.

Definition remove_margin (margin line : string) : string :=
  if startswith margin line then string_drop (String.length margin) line else line.

Definition dedent (text : string) : string :=
  let lines := map (fun l => if all_blank l then EmptyString else l) (split "010" text) in
  let indents := map leading_blank (List.filter (fun l => negb (String.eqb l EmptyString)) lines) in
  let margin := match indents with
                | [] => EmptyString
                | i :: rest => fold_left common_prefix rest i
                end in
  join nl (map (remove_margin margin) lines).

(** ** Sequence programs (lines 99-126) *)

(** The triple-quoted literal of line 110, with its twelve- and
    sixteen-space indentation. *)
Definition awg_program_literal : string :=
  nl +:+
  "            HEADER" +:+ nl +:+
  "            while(true){" +:+ nl +:+
  "                playWave(WAVES);" +:+ nl +:+
  "            }" +:+ nl +:+
  "            ".

(** [__name__], the name under which the module was loaded, is an
    argument: the source does not fix it. *)
Definition generate_csv_sequence_program
    (__name__ : string) (wave_names : list string) (channels : option (list Z))
    : result string :=
  let awg_program := dedent awg_program_literal in
  rbind (format ("// generated by {}" +:+ nl) [__name__]) (fun sequence_header =>
  let awg_program := replace "HEADER" sequence_header awg_program in
  rbind
    match channels with
    | None =>
        let argument_string :=
          replace (dq +:+ dq) (dq +:+ ", " +:+ dq)
                  (repeat_str (dq +:+ "{}" +:+ dq) (length wave_names)) in
        format argument_string wave_names
    | Some channels =>
        let argument_string :=
          replace ("}" +:+ dq +:+ "{") ("}" +:+ dq +:+ ", {")
                  (repeat_str ("{}, " +:+ dq +:+ "{}" +:+ dq) (length wave_names)) in
        format argument_string
               (flat_map (fun pair => [str_of_Z (fst pair); snd pair])
                         (combine channels wave_names))
    end
    (fun waves => Ok (replace "WAVES" waves awg_program))).

(** ** The world the driver runs in *)

(** The two vendor objects the driver holds. *)
Inductive handle := awg_module | daq.

Inductive method :=
| getInt | getDouble | getString | vectorRead
| set | setInt | setDouble | setString | vectorWrite.

#[warning="-register-all"] Inductive pyval :=
| PyNone
| PyInt (z : Z)
| PyFloat (f : float)
| PyStr (s : string)
| PyList (l : list pyval).

Inductive event :=
| Call (h : handle) (m : method) (path : string) (arg : option pyval)
| Sync                               (* [daq.sync()] *)
| Sleep (seconds : float).           (* [time.sleep] *)

Definition handle_eqb (a b : handle) : bool :=
  match a, b with
  | awg_module, awg_module | daq, daq => true
  | _, _ => false
  end.

Definition method_tag (m : method) : nat :=
  match m with
  | getInt => 0 | getDouble => 1 | getString => 2 | vectorRead => 3
  | set => 4 | setInt => 5 | setDouble => 6 | setString => 7 | vectorWrite => 8
  end.

Definition is_call (h : handle) (m : method) (path : string) (e : event) : bool :=
  match e with
  | Call h' m' path' _ =>
      handle_eqb h h' && (method_tag m =? method_tag m')%nat && String.eqb path path'
  | _ => false
  end.

(** How often the call was issued so far. *)
Definition calls_so_far (h : handle) (m : method) (path : string)
    (tr : list event) : nat :=
  length (List.filter (is_call h m path) tr).

(** The environment is deterministic: the answer to a read is a function
    of the object, the node path and the number of earlier reads of that
    node.  [trace] lists the calls issued so far, oldest first; the file
    system is the set of directories, the paths that can be opened for
    writing, and the contents of the files. *)
Record world := World {
  trace : list event;
  int_reply : handle -> string -> nat -> Z;
  double_reply : handle -> string -> nat -> float;
  string_reply : handle -> string -> nat -> string;
  vector_reply : handle -> string -> nat -> pyval;
  isdir : string -> bool;
  can_open : string -> bool;
  files : gmap string string
}.

Definition log (e : event) (w : world) : world :=
  World (trace w ++ [e]) (int_reply w) (double_reply w) (string_reply w)
        (vector_reply w) (isdir w) (can_open w) (files w).

Definition write_file (path content : string) (w : world) : world :=
  World (trace w) (int_reply w) (double_reply w) (string_reply w)
        (vector_reply w) (isdir w) (can_open w) (<[path := content]> (files w)).

(** A run returns, raises, or is still polling when the fuel is spent. *)
Inductive outcome (A : Type) :=
| Returns (a : A) (w : world)
| Raises (e : exn) (w : world)
| OutOfFuel.
Arguments Returns {A} a w.
Arguments Raises {A} e w.
Arguments OutOfFuel {A}.

Definition M (A : Type) : Type := world -> outcome A.

Definition ret {A} (a : A) : M A := fun w => Returns a w.
Definition raise {A} (e : exn) : M A := fun w => Raises e w.
Definition bind {A B} (c : M A) (k : A -> M B) : M B :=
  fun w => match c w with
           | Returns a w' => k a w'
           | Raises e w' => Raises e w'
           | OutOfFuel => OutOfFuel
           end.
Definition lift {A} (r : result A) : M A :=
  match r with
  | Ok a => ret a
  | Err e => raise e
  end.

Declare Scope drv_scope.
Delimit Scope drv_scope with drv.
Notation "x <- c ;; k" := (bind c (fun x => k))
  (at level 100, c at next level, right associativity) : drv_scope.
Notation "c ;; k" := (bind c (fun _ => k))
  (at level 100, right associativity) : drv_scope.
Open Scope drv_scope.

(** [while cond: body], with at most [fuel] evaluations of [cond]. *)
Fixpoint while (fuel : nat) (cond : M bool) (body : M unit) : M unit :=
  match fuel with
  | O => fun _ => OutOfFuel
  | S fuel' =>
      b <- cond ;;
      if b : bool then body ;; while fuel' cond body else ret tt
  end.

(** *** Vendor calls *)

Definition call_getInt (h : handle) (path : string) : M Z := fun w =>
  Returns (int_reply w h path (calls_so_far h getInt path (trace w)))
          (log (Call h getInt path None) w).

Definition call_getDouble (h : handle) (path : string) : M float := fun w =>
  Returns (double_reply w h path (calls_so_far h getDouble path (trace w)))
          (log (Call h getDouble path None) w).

Definition call_getString (h : handle) (path : string) : M string := fun w =>
  Returns (string_reply w h path (calls_so_far h getString path (trace w)))
          (log (Call h getString path None) w).

Definition call_vectorRead (h : handle) (path : string) : M pyval := fun w =>
  Returns (vector_reply w h path (calls_so_far h vectorRead path (trace w)))
          (log (Call h vectorRead path None) w).

Definition call_write (h : handle) (m : method) (path : string) (v : pyval)
    : M unit := fun w =>
  Returns tt (log (Call h m path (Some v)) w).

Definition sleep (seconds : float) : M unit := fun w =>
  Returns tt (log (Sleep seconds) w).

(** ** Uploading a sequence program (lines 128-147) *)

Definition upload_sequence_program (fuel : nat)
    (awg_number : Z) (sequence_program : string) : M Z :=
  call_write awg_module set "awgModule/index" (PyInt awg_number) ;;
  call_write awg_module set "awgModule/compiler/sourcestring"
             (PyStr sequence_program) ;;
  while fuel
    (status <- call_getInt awg_module "awgModule/compiler/status" ;;
     ret (status =? -1)%Z)
    (sleep 0.1) ;;
  status <- call_getInt awg_module "awgModule/compiler/status" ;;
  if (status =? 1)%Z
  then
    msg <- call_getString awg_module "awgModule/compiler/statusstring" ;;
    raise (Exception msg)
  else
    while fuel
      (progress <- call_getDouble awg_module "awgModule/progress" ;;
       ret (PrimFloat.ltb progress 1.0))
      (sleep 0.1) ;;
    call_getInt awg_module "awgModule/compiler/status".

(** ** Accessors (lines 221-239) *)

Definition _setter (name param_type : string) (value : pyval) : M unit :=
  if String.eqb param_type "Integer (64 bit)"
     || String.eqb param_type "Integer (enumerated)"
  then call_write daq setInt name value
  else if String.eqb param_type "Double"
  then call_write daq setDouble name value
  else if String.eqb param_type "String"
  then call_write daq setString name value
  else if String.eqb param_type "ZIVectorData"
  then call_write daq vectorWrite name value
  else ret tt.

Definition _getter (name param_type : string) : M pyval :=
  if String.eqb param_type "Integer (64 bit)"
     || String.eqb param_type "Integer (enumerated)"
  then z <- call_getInt daq name ;; ret (PyInt z)
  else if String.eqb param_type "Double"
  then f <- call_getDouble daq name ;; ret (PyFloat f)
  else if String.eqb param_type "String"
  then s <- call_getString daq name ;; ret (PyStr s)
  else if String.eqb param_type "ZIVectorData"
  then call_vectorRead daq name
  else ret PyNone.

(** ** Binding parameters to the node tree (lines 176-197) *)

(** The value of an entry's ['Properties']: the vendor's text (as in
    ["Read, Write, Setting"]) or a list of permissions.  Python's [in]
    is a substring test on the former and membership on the latter. *)
Inductive properties :=
| PropText (s : string)
| PropList (l : list string).

Definition py_in (x : string) (c : properties) : bool :=
  match c with
  | PropText s => contains x s
  | PropList l => existsb (String.eqb x) l
  end.

(** One entry of the node tree; ['Options'] is present for enumerated
    nodes only and maps the text of each value to its label. *)
Record schema_entry := SchemaEntry {
  Node : string;
  Type_ : string;
  Properties : properties;
  Options : option (list (string * string));
  Description : string;
  Unit : string
}.

(** Modelled from the spec: [validators.Enum] of [qcodes.utils], which is
    not among the sources; it restricts the accepted values to the given
    integers. *)
Inductive validator := Enum (values : list Z).

Definition validate (v : validator) (value : pyval) : bool :=
  match v, value with
  | Enum values, PyInt z => existsb (Z.eqb z) values
  | Enum _, _ => false
  end.

(** A bound parameter, as [add_parameter] receives it. *)
Record bound_parameter := BoundParameter {
  set_cmd : option (pyval -> M unit);
  get_cmd : option (M pyval);
  vals : option validator;
  docstring : string;
  unit_ : string
}.

(** Modelled from the spec: [Instrument.add_parameter] of [qcodes], which
    is not among the sources; it registers the accessor under its name,
    and a later registration under the same name replaces the earlier. *)
Definition add_parameter (name : string) (p : bound_parameter)
    (self : gmap string bound_parameter) : gmap string bound_parameter :=
  <[name := p]> self.

(** The body of the loop: what one entry contributes. *)
Definition bind_entry (parameter : schema_entry) : result (string * bound_parameter) :=
  let getter := if py_in "Read" (Properties parameter)
                then Some (_getter (Node parameter) (Type_ parameter)) else None in
  let setter := if py_in "Write" (Properties parameter)
                then Some (_setter (Node parameter) (Type_ parameter)) else None in
  rbind
    (if String.eqb (Type_ parameter) "Integer (enumerated)"
     then match Options parameter with
          | Some options =>
              rbind (rmap_all int (map fst options)) (fun ks => Ok (Some (Enum ks)))
          | None => Err (KeyError "Options")
          end
     else Ok None)
    (fun options =>
       let parameter_name := _generate_parameter_name (Node parameter) in
       Ok (parameter_name,
           BoundParameter setter getter options (Description parameter) (Unit parameter))).

(** The loop over [parameters.values()]; an exception leaves the
    parameters bound so far in place. *)
Fixpoint bind_values (values : list schema_entry) (self : gmap string bound_parameter)
    : result unit * gmap string bound_parameter :=
  match values with
  | [] => (Ok tt, self)
  | parameter :: rest =>
      match bind_entry parameter with
      | Ok (name, p) => bind_values rest (add_parameter name p self)
      | Err e => (Err e, self)
      end
  end.

Definition create_parameters_from_node_tree
    (parameters : list (string * schema_entry)) (self : gmap string bound_parameter)
    : result unit * gmap string bound_parameter :=
  bind_values (map snd parameters) self.

(** Modelled from the spec: setting a bound parameter ([Parameter.set] of
    [qcodes], not among the sources) validates the value with the declared
    validator, if any, and only then calls the setter. *)
Definition parameter_set (p : bound_parameter) (value : pyval) : M unit :=
  match set_cmd p with
  | None => raise NotSettable
  | Some setter =>
      match vals p with
      | Some v => if validate v value then setter value else raise ValidationError
      | None => setter value
      end
  end.

(** ** Waveform files (lines 77-97) *)

(** [os.path.join] of two components, POSIX flavour. *)
Fixpoint ends_with_slash (s : string) : bool :=
  match s with
  | EmptyString => false
  | String c EmptyString => Ascii.eqb c "/"
  | String _ s' => ends_with_slash s'
  end.

Definition path_join (a b : string) : string :=
  if startswith "/" b then b
  else if String.eqb a EmptyString || ends_with_slash a then a +:+ b
  else a +:+ "/" +:+ b.

Definition os_path_isdir (path : string) : M bool := fun w =>
  Returns (isdir w path) w.

(** [open(path, "w")]: creates or truncates the file. *)
Definition open_w (path : string) : M unit := fun w =>
  if can_open w path then Returns tt (write_file path EmptyString w)
  else Raises (OSError path) w.

Definition file_write (path text : string) : M unit := fun w =>
  Returns tt (write_file path (default EmptyString (files w !! path) +:+ text) w).

(** [zip] of any number of sequences: each round takes the next item of
    every sequence in turn and stops at the first that has none; with no
    sequence at all there is no round. *)
Fixpoint next_items {A} (iters : list (list A)) : option (list A * list (list A)) :=
  match iters with
  | [] => Some ([], [])
  | [] :: _ => None
  | (x :: it) :: iters' =>
      match next_items iters' with
      | Some (xs, its) => Some (x :: xs, it :: its)
      | None => None
      end
  end.

Fixpoint zip_rounds {A} (first : list A) (others : list (list A)) : list (list A) :=
  match first with
  | [] => []
  | x :: first' =>
      match next_items others with
      | Some (xs, others') => (x :: xs) :: zip_rounds first' others'
      | None => []
      end
  end.

Definition zip_star {A} (seqs : list (list A)) : list (list A) :=
  match seqs with
  | [] => []
  | first :: others => zip_rounds first others
  end.

(** [csv.writer(f, delimiter=';')]: minimal quoting, doubled quotes,
    rows ended by carriage return and line feed. *)
Definition crlf : string := String "013" (String "010" EmptyString).

Fixpoint has_special (s : string) : bool :=
  match s with
  | EmptyString => false
  | String c s' =>
      Ascii.eqb c ";" || Ascii.eqb c "034" || Ascii.eqb c "013" || Ascii.eqb c "010"
      || has_special s'
  end.

Fixpoint double_quotes (s : string) : string :=
  match s with
  | EmptyString => EmptyString
  | String c s' =>
      if Ascii.eqb c "034" then String c (String c (double_quotes s'))
      else String c (double_quotes s')
  end.

Definition csv_field (s : string) : string :=
  if has_special s then dq +:+ double_quotes s +:+ dq else s.

Definition csv_row (fields : list string) : string :=
  match fields with
  | [EmptyString] => dq +:+ dq +:+ crlf
  | _ => join ";" (map csv_field fields) +:+ crlf
  end.

Fixpoint concat_str (l : list string) : string :=
  match l with
  | [] => EmptyString
  | x :: l' => x +:+ concat_str l'
  end.

Section Csv.
(** The samples and their [str]: numbers, whose text the source leaves
    to Python. *)
Context {sample : Type} (str : sample -> string).

Definition writerows (path : string) (rows : list (list sample)) : M unit :=
  file_write path (concat_str (map (fun row => csv_row (map str row)) rows)).

Definition waveform_to_csv (wave_name : string) (waveforms : list (list sample))
    : M unit :=
  data_dir <- call_getString awg_module "awgModule/directory" ;;
  let wave_dir := path_join (path_join data_dir "awg") "waves" in
  is_dir <- os_path_isdir wave_dir ;;
  if negb is_dir
  then
    msg <- lift (format
      "AWG module wave directory {} does not exist or is not a directory"
      [wave_dir]) ;;
    raise (Exception msg)
  else
    let csv_file := path_join wave_dir (wave_name +:+ ".csv") in
    open_w csv_file ;;
    writerows csv_file (zip_star waveforms).
End Csv.

(** The length of the shortest waveform; none for no waveform. *)
Definition min_length {A} (k : nat) (others : list (list A)) : nat :=
  fold_right (fun s m => Nat.min (length s) m) k others.

Definition shortest {A} (seqs : list (list A)) : nat :=
  match seqs with
  | [] => 0
  | first :: others => min_length (length first) others
  end.

(** ** Outputs, sequencers and waveform memory (lines 41-75, 149-174) *)

(** Modelled from the spec: [Instrument.set] of [qcodes], which is not
    among the sources; it sets the parameter registered under the name,
    and an unknown name is a missing key of the registry. *)
Definition instrument_set (self : gmap string bound_parameter)
    (param_name : string) (value : pyval) : M unit :=
  match self !! param_name with
  | Some p => parameter_set p value
  | None => raise (KeyError param_name)
  end.

Definition enable_channel (self : gmap string bound_parameter)
    (channel_number : Z) : M unit :=
  name <- lift (format "sigouts_{}_on" [str_of_Z channel_number]) ;;
  instrument_set self name (PyInt 1).

Definition disable_channel (self : gmap string bound_parameter)
    (channel_number : Z) : M unit :=
  name <- lift (format "sigouts_{}_on" [str_of_Z channel_number]) ;;
  instrument_set self name (PyInt 0).

Definition start_awg (self : gmap string bound_parameter) (awg_number : Z)
    : M unit :=
  name <- lift (format "awgs_{}_enable" [str_of_Z awg_number]) ;;
  instrument_set self name (PyInt 1).

Definition stop_awg (self : gmap string bound_parameter) (awg_number : Z)
    : M unit :=
  name <- lift (format "awgs_{}_enable" [str_of_Z awg_number]) ;;
  instrument_set self name (PyInt 0).

(** [daq.sync()] *)
Definition call_sync : M unit := fun w => Returns tt (log Sync w).

Definition upload_waveform (self : gmap string bound_parameter)
    (awg_number : Z) (waveform : pyval) (index : pyval) : M unit :=
  index_name <- lift (format "awgs_{}_waveform_index" [str_of_Z awg_number]) ;;
  instrument_set self index_name index ;;
  call_sync ;;
  data_name <- lift (format "awgs_{}_waveform_data" [str_of_Z awg_number]) ;;
  instrument_set self data_name waveform.

Definition set_channel_grouping (self : gmap string bound_parameter)
    (group : pyval) : M unit :=
  instrument_set self "system_awg_channelgrouping" group.

(** ** Vocabulary of the statements *)

Fixpoint occurs (c : ascii) (s : string) : bool :=
  match s with
  | EmptyString => false
  | String x s' => Ascii.eqb x c || occurs c s'
  end.

Definition quoted (w : string) : string := dq +:+ w +:+ dq.

(** The text of the program for a given argument list of [playWave]. *)
Definition program_text (__name__ waves : string) : string :=
  nl +:+ "// generated by " +:+ replace "WAVES" waves __name__ +:+ nl +:+ nl
  +:+ "while(true){" +:+ nl
  +:+ "    playWave(" +:+ waves +:+ ");" +:+ nl
  +:+ "}" +:+ nl.

Definition program_body : string :=
  nl +:+ "while(true){" +:+ nl +:+ "    playWave(WAVES);" +:+ nl +:+ "}" +:+ nl.

Fixpoint more_waves (ws : list string) : string :=
  match ws with
  | [] => EmptyString
  | w :: ws' => ", " +:+ dq +:+ w +:+ dq +:+ more_waves ws'
  end.

Fixpoint more_pairs (ps : list (Z * string)) : string :=
  match ps with
  | [] => EmptyString
  | p :: ps' =>
      ", " +:+ str_of_Z (fst p) +:+ ", " +:+ dq +:+ snd p +:+ dq +:+ more_pairs ps'
  end.

Definition pair_text (p : Z * string) : string :=
  str_of_Z (fst p) +:+ ", " +:+ quoted (snd p).

Definition flat_pair (pair : Z * string) : list string :=
  [str_of_Z (fst pair); snd pair].

Definition extend (evs : list event) (w : world) : world :=
  World (trace w ++ evs) (int_reply w) (double_reply w) (string_reply w)
        (vector_reply w) (isdir w) (can_open w) (files w).

(** [n] unsuccessful polls, each followed by a sleep, and the poll that
    ends the loop. *)
Fixpoint polls (h : handle) (m : method) (path : string) (seconds : float)
    (n : nat) : list event :=
  match n with
  | O => [Call h m path None]
  | S n' => Call h m path None :: Sleep seconds :: polls h m path seconds n'
  end.

Definition status_node : string := "awgModule/compiler/status".
Definition statusstring_node : string := "awgModule/compiler/statusstring".
Definition progress_node : string := "awgModule/progress".

(** The answer to the [k]-th read of the compiler status, of the progress
    and of the status text that is issued from the world [w] on. *)
Definition status_read (w : world) (k : nat) : Z :=
  int_reply w awg_module status_node
    (calls_so_far awg_module getInt status_node (trace w) + k).

Definition progress_read (w : world) (k : nat) : float :=
  double_reply w awg_module progress_node
    (calls_so_far awg_module getDouble progress_node (trace w) + k).

Definition status_message (w : world) : string :=
  string_reply w awg_module statusstring_node
    (calls_so_far awg_module getString statusstring_node (trace w)).

(** The calls up to and including the read that decides on failure, when
    the compiler was found busy [n] times. *)
Definition upload_prefix (awg_number : Z) (sequence_program : string) (n : nat)
    : list event :=
  [Call awg_module set "awgModule/index" (Some (PyInt awg_number));
   Call awg_module set "awgModule/compiler/sourcestring"
        (Some (PyStr sequence_program))]
  ++ polls awg_module getInt status_node 0.1 n
  ++ [Call awg_module getInt status_node None].

(** A world whose compiler answers from the given scripts, with an empty
    trace and an empty file system. *)
Definition scripted_world (status : nat -> Z) (progress : nat -> float)
    (message directory : string) (directories : string -> bool) : world :=
  World [] (fun _ _ k => status k) (fun _ _ k => progress k)
        (fun _ path _ => if String.eqb path statusstring_node then message
                         else directory)
        (fun _ _ _ => PyNone) directories (fun _ => true) ∅.

(** Busy twice, then status 1 for good. *)
Definition failing_world : world :=
  scripted_world (fun k => if (k <? 2)%nat then (-1)%Z else 1%Z) (fun _ => 1%float)
                 "compilation failed" "/data" (fun _ => true).

(** Busy once, then status 1 for good, the progress complete at once. *)
Definition status_one_world : world :=
  scripted_world (fun k => if (k <? 1)%nat then (-1)%Z else 1%Z) (fun _ => 1%float)
                 "line 3: warning" "/data" (fun _ => true).

(** Busy twice, then status 0; the progress reads 0.4, then 1.0. *)
Definition success_world : world :=
  scripted_world (fun k => if (k <? 2)%nat then (-1)%Z else 0%Z)
                 (fun k => if (k <? 1)%nat then 0.4%float else 1%float)
                 "" "/data" (fun _ => true).

(** The type tags on which [_getter] and [_setter] dispatch. *)
Definition recognized (param_type : string) : bool :=
  String.eqb param_type "Integer (64 bit)"
  || String.eqb param_type "Integer (enumerated)"
  || String.eqb param_type "Double"
  || String.eqb param_type "String"
  || String.eqb param_type "ZIVectorData".

(** A readable and writable enumerated node, and a read-only one. *)
Definition channelgrouping_entry : schema_entry :=
  SchemaEntry "/DEV8006/SYSTEM/AWG/CHANNELGROUPING" "Integer (enumerated)"
              (PropText "Read, Write, Setting")
              (Some [("0", "groups_of_2"); ("1", "groups_of_4"); ("2", "groups_of_8")])
              "Sets the channel grouping mode of the device." "None".

Definition temperature_entry : schema_entry :=
  SchemaEntry "/DEV8006/STATS/PHYSICAL/TEMPERATURES/0" "Double"
              (PropList ["Read"]) None "Internal temperature." "degC".

(** Two nodes that differ in the device part of the path only. *)
Definition amplitude_entry (device : string) (unit_text : string) : schema_entry :=
  SchemaEntry ("/" +:+ device +:+ "/SIGOUTS/0/RANGE") "Double"
              (PropText "Read, Write, Setting") None "Output range." unit_text.

Definition directory_node : string := "awgModule/directory".

(** The directory the module reports, and the wave directory under it. *)
Definition wave_directory (w : world) : string :=
  path_join
    (path_join
       (string_reply w awg_module directory_node
          (calls_so_far awg_module getString directory_node (trace w)))
       "awg")
    "waves".

Definition csv_path (w : world) (wave_name : string) : string :=
  path_join (wave_directory w) (wave_name +:+ ".csv").

(** The text of a number: not empty, and free of the delimiter, of quotes
    and of line ends, so that the writer leaves it bare. *)
Definition plain_field (s : string) : bool :=
  negb (has_special s) && negb (String.eqb s EmptyString).

(** The calls that read a node, and those that write one. *)
Definition is_read (m : method) : bool :=
  match m with
  | getInt | getDouble | getString | vectorRead => true
  | _ => false
  end.

Definition is_write (m : method) : bool :=
  match m with
  | setInt | setDouble | setString | vectorWrite => true
  | _ => false
  end.

(** The name a schema entry is registered under. *)
Definition derived_name (parameter : schema_entry) : string :=
  _generate_parameter_name (Node parameter).

Definition binds (parameter : schema_entry) : Prop :=
  exists name p, bind_entry parameter = Ok (name, p).

(** The argument list of [playWave], as lines 118-123 compute it. *)
Definition argument_text (wave_names : list string) (channels : option (list Z))
    : result string :=
  match channels with
  | None =>
      format (replace (dq +:+ dq) (dq +:+ ", " +:+ dq)
                (repeat_str (dq +:+ "{}" +:+ dq) (length wave_names)))
             wave_names
  | Some channels =>
      format (replace ("}" +:+ dq +:+ "{") ("}" +:+ dq +:+ ", {")
                (repeat_str ("{}, " +:+ dq +:+ "{}" +:+ dq) (length wave_names)))
             (flat_map (fun pair => [str_of_Z (fst pair); snd pair])
                       (combine channels wave_names))
  end.

(** The names under which the driver's own methods look parameters up. *)
Definition channel_parameter (channel_number : Z) : string :=
  "sigouts_" +:+ str_of_Z channel_number +:+ "_on".

Definition awg_parameter (awg_number : Z) (suffix : string) : string :=
  "awgs_" +:+ str_of_Z awg_number +:+ suffix.

(** A small node tree of one device, and the instrument bound to it. *)
Definition hdawg_tree : list (string * schema_entry) :=
  [("/dev8006/sigouts/0/on",
    SchemaEntry "/DEV8006/SIGOUTS/0/ON" "Integer (64 bit)"
                (PropText "Read, Write, Setting") None "Enables the output." "None");
   ("/dev8006/awgs/0/enable",
    SchemaEntry "/DEV8006/AWGS/0/ENABLE" "Integer (64 bit)"
                (PropText "Read, Write") None "Activates the sequencer." "None");
   ("/dev8006/awgs/0/waveform/index",
    SchemaEntry "/DEV8006/AWGS/0/WAVEFORM/INDEX" "Integer (64 bit)"
                (PropText "Read, Write") None "Index of the waveform." "None");
   ("/dev8006/awgs/0/waveform/data",
    SchemaEntry "/DEV8006/AWGS/0/WAVEFORM/DATA" "ZIVectorData"
                (PropText "Read, Write") None "Samples of the waveform." "None");
   ("/dev8006/system/awg/channelgrouping", channelgrouping_entry)].

Definition hdawg : gmap string bound_parameter :=
  snd (create_parameters_from_node_tree hdawg_tree ∅).

(** The events that concern the compiler module or the clock only. *)
Definition module_or_clock (e : event) : bool :=
  match e with
  | Call awg_module _ _ _ => true
  | Sleep _ => true
  | _ => false
  end.

(** A computation that, when it comes back, has only added calls to the
    compiler module and sleeps to the trace and changed nothing else. *)
Definition module_only {A} (c : M A) : Prop :=
  forall w,
    match c w with
    | Returns _ w' | Raises _ w' =>
        exists evs, w' = extend evs w /\ forallb module_or_clock evs = true
    | OutOfFuel => True
    end.

(** The upload from the first poll of the compiler on (lines 139-147). *)
Definition upload_after_submission (fuel : nat) : M Z :=
  while fuel
    (status <- call_getInt awg_module "awgModule/compiler/status" ;;
     ret (status =? -1)%Z)
    (sleep 0.1) ;;
  status <- call_getInt awg_module "awgModule/compiler/status" ;;
  if (status =? 1)%Z
  then
    msg <- call_getString awg_module "awgModule/compiler/statusstring" ;;
    raise (Exception msg)
  else
    while fuel
      (progress <- call_getDouble awg_module "awgModule/progress" ;;
       ret (PrimFloat.ltb progress 1.0))
      (sleep 0.1) ;;
    call_getInt awg_module "awgModule/compiler/status".

(** * Properties *)

(** ** Strings *)

Lemma app_empty_r (s : string) : s +:+ EmptyString = s.
Proof. induction s as [|c s IH]; simpl; [reflexivity | now rewrite IH]. Qed.

Lemma app_assoc_str (a b c : string) : (a +:+ b) +:+ c = a +:+ (b +:+ c).
Proof. induction a as [|x a IH]; simpl; [reflexivity | now rewrite IH]. Qed.

Lemma lower_app (a b : string) : lower (a +:+ b) = lower a +:+ lower b.
Proof. induction a as [|x a IH]; simpl; [reflexivity | now rewrite IH]. Qed.

Lemma lower_join (sep : string) (l : list string) :
  lower (join sep l) = join (lower sep) (map lower l).
Proof.
  induction l as [|x l IH]; [reflexivity|].
  destruct l as [|y l]; [reflexivity|].
  change (join sep (x :: y :: l)) with (x +:+ sep +:+ join sep (y :: l)).
  rewrite !lower_app, IH. reflexivity.
Qed.

Lemma slash_free_cons (c : ascii) (s : string) :
  slash_free (String c s) -> Ascii.eqb c "/" = false /\ slash_free s.
Proof.
  unfold slash_free. simpl. rewrite (Ascii.eqb_sym "/" c).
  destruct (Ascii.eqb c "/"); simpl; [discriminate | auto].
Qed.

Lemma split_slash_free (s : string) : slash_free s -> split "/" s = [s].
Proof.
  induction s as [|c s IH]; intros H; [reflexivity|].
  apply slash_free_cons in H as [Hc Hs]. simpl. rewrite Hc, (IH Hs). reflexivity.
Qed.

Lemma split_segment (a b : string) :
  slash_free a -> split "/" (a +:+ "/" +:+ b) = a :: split "/" b.
Proof.
  induction a as [|c a IH]; intros H; [reflexivity|].
  apply slash_free_cons in H as [Hc Ha].
  change (String c a +:+ "/" +:+ b) with (String c (a +:+ "/" +:+ b)).
  cbn [split]. rewrite Hc, (IH Ha). reflexivity.
Qed.

Lemma split_join (segs : list string) :
  Forall slash_free segs -> segs <> [] -> split "/" (join "/" segs) = segs.
Proof.
  induction 1 as [|x l Hx Hl IH]; intros Hne; [congruence|].
  destruct l as [|y l].
  - simpl. now apply split_slash_free.
  - change (join "/" (x :: y :: l)) with (x +:+ "/" +:+ join "/" (y :: l)).
    rewrite split_segment by assumption. rewrite IH; [reflexivity | discriminate].
Qed.

Lemma split_segments_slash_free (s : string) : Forall slash_free (split "/" s).
Proof.
  induction s as [|c s IH]; [repeat constructor|].
  cbn [split]. destruct (Ascii.eqb c "/") eqn:Hc.
  - constructor; [reflexivity | exact IH].
  - destruct (split "/" s) as [|seg segs]; [repeat constructor|].
    + unfold slash_free. cbn [contains startswith].
      rewrite (Ascii.eqb_sym "/" c), Hc. reflexivity.
    + inversion IH as [|? ? Hseg Hsegs]; subst. constructor; [|exact Hsegs].
      unfold slash_free in *. cbn [contains startswith].
      rewrite (Ascii.eqb_sym "/" c), Hc. exact Hseg.
Qed.

Lemma join_split (s : string) : join "/" (split "/" s) = s.
Proof.
  induction s as [|c s IH]; [reflexivity|].
  cbn [split]. destruct (Ascii.eqb c "/") eqn:Hc.
  - apply Ascii.eqb_eq in Hc. subst c.
    destruct (split "/" s) as [|seg segs] eqn:Hs.
    + simpl in IH. subst s. discriminate Hs.
    + change (join "/" (EmptyString :: seg :: segs))
        with ("/" +:+ join "/" (seg :: segs)).
      now rewrite IH.
  - destruct (split "/" s) as [|seg segs] eqn:Hs.
    + simpl in IH. now subst s.
    + destruct segs as [|seg' segs].
      * simpl in IH. simpl. now rewrite IH.
      * change (join "/" (String c seg :: seg' :: segs))
          with (String c (join "/" (seg :: seg' :: segs))).
        now rewrite IH.
Qed.

(** ** Parameter names *)

(** C3: for a node path made of the segments [segs] separated by slashes,
    the derived name is the segments after the first two, lower-cased and
    joined by underscores; every node path is made so of its segments;
    the path "/dev1234/sigouts/0/on", whose first two segments are the
    empty one before the leading slash and the device, gives
    "sigouts_0_on". *)
Theorem generate_parameter_name_segments :
  (forall segs : list string,
      Forall slash_free segs ->
      _generate_parameter_name (join "/" segs)
      = join "_" (map lower (drop 2 segs)))
  /\ (forall node : string,
        Forall slash_free (split "/" node) /\ join "/" (split "/" node) = node)
  /\ _generate_parameter_name "/dev1234/sigouts/0/on" = "sigouts_0_on".
Proof.
  split; [|split; [|reflexivity]]; cycle 1.
  { intros node. split; [apply split_segments_slash_free | apply join_split]. }
  intros segs Hsegs. unfold _generate_parameter_name.
  destruct segs as [|x l]; [reflexivity|].
  rewrite split_join by (assumption || discriminate).
  now rewrite lower_join.
Qed.

Lemma generate_parameter_name_segments_witness :
  _generate_parameter_name (join "/" [""; "dev8006"; "AWGS"; "0"; "Enable"])
  = join "_" (map lower (drop 2 [""; "dev8006"; "AWGS"; "0"; "Enable"])).
Proof.
  apply (proj1 generate_parameter_name_segments).
  repeat constructor.
Defined.

(** ** Sequence programs *)

Lemma startswith_app_absent (c : ascii) (old : string) :
  occurs c old = false ->
  forall a b, startswith old (a +:+ String c b) = startswith old a.
Proof.
  induction old as [|x old IH]; intros Hc a b; [now destruct a|].
  simpl in Hc. apply orb_false_iff in Hc as [Hx Hold].
  destruct a as [|y a]; simpl.
  - now rewrite Hx.
  - now rewrite (IH Hold).
Qed.

Lemma startswith_length (old s : string) :
  startswith old s = true -> String.length old <= String.length s.
Proof.
  revert s. induction old as [|x old IH]; intros [|y s] H; simpl in *;
    try lia; try discriminate.
  apply andb_true_iff in H as [_ H]. apply IH in H. lia.
Qed.

(** Replacement works piecewise across a character that the searched
    text does not contain. *)
Lemma replace_from_app (old new : string) (c : ascii) :
  occurs c old = false -> old <> EmptyString ->
  forall a k b, k <= String.length a ->
    replace_from old new k (a +:+ String c b)
    = replace_from old new k a +:+ String c (replace_from old new 0 b).
Proof.
  intros Hc Hne. induction a as [|y a IH]; intros k b Hk.
  - simpl in Hk. assert (k = 0) as -> by lia. simpl.
    destruct old as [|x old]; [congruence|].
    simpl in Hc. apply orb_false_iff in Hc as [Hx _].
    cbn [startswith]. now rewrite Hx.
  - destruct k as [|k].
    + change (String y a +:+ String c b) with (String y (a +:+ String c b)).
      cbn [replace_from].
      change (String y (a +:+ String c b)) with (String y a +:+ String c b).
      rewrite (startswith_app_absent c old Hc).
      destruct (startswith old (String y a)) eqn:Hs.
      * apply startswith_length in Hs. simpl in Hs.
        rewrite IH by lia. now rewrite app_assoc_str.
      * simpl. now rewrite IH by lia.
    + simpl in Hk. simpl. apply IH. lia.
Qed.

Lemma replace_app (old new : string) (c : ascii) (a b : string) :
  occurs c old = false -> old <> EmptyString ->
  replace old new (a +:+ String c b)
  = replace old new a +:+ String c (replace old new b).
Proof. intros Hc Hne. unfold replace. apply replace_from_app; auto with lia. Qed.

Lemma program_of_waves (__name__ waves : string) :
  rbind (format ("// generated by {}" +:+ nl) [__name__]) (fun sequence_header =>
    Ok (replace "WAVES" waves
          (replace "HEADER" sequence_header (dedent awg_program_literal))))
  = Ok (program_text __name__ waves).
Proof.
  change (format ("// generated by {}" +:+ nl) [__name__])
    with (Ok ("// generated by " +:+ __name__ +:+ nl)).
  cbn [rbind]. f_equal.
  transitivity
    (replace "WAVES" waves
       (String "010" ("// generated by "
                      +:+ (__name__ +:+ String "010" program_body)))).
  { f_equal.
    change (replace "HEADER" ("// generated by " +:+ __name__ +:+ nl)
              (dedent awg_program_literal))
      with (String "010" ("// generated by "
                          +:+ ((__name__ +:+ nl) +:+ program_body))).
    now rewrite app_assoc_str. }
  transitivity
    (String "010" ("// generated by "
                   +:+ replace "WAVES" waves
                         (__name__ +:+ String "010" program_body)));
    [reflexivity|].
  rewrite replace_app by (reflexivity || discriminate).
  reflexivity.
Qed.

(** What follows the first argument of [playWave]. *)
Ltac str_norm :=
  unfold quoted, dq, nl; repeat (rewrite app_assoc_str || (progress simpl)).

Lemma join_quoted (w : string) (ws : list string) :
  join ", " (map quoted (w :: ws)) = dq +:+ w +:+ dq +:+ more_waves ws.
Proof.
  revert w. induction ws as [|v ws IH]; intros w.
  - unfold quoted. simpl. rewrite ?app_empty_r. reflexivity.
  - change (join ", " (map quoted (w :: v :: ws)))
      with (quoted w +:+ ", " +:+ join ", " (map quoted (v :: ws))).
    rewrite IH. now str_norm.
Qed.

Lemma join_pairs (p : Z * string) (ps : list (Z * string)) :
  join ", " (map pair_text (p :: ps))
  = str_of_Z (fst p) +:+ ", " +:+ dq +:+ snd p +:+ dq +:+ more_pairs ps.
Proof.
  revert p. induction ps as [|q ps IH]; intros p.
  - unfold pair_text, quoted. simpl. rewrite ?app_empty_r. reflexivity.
  - change (join ", " (map pair_text (p :: q :: ps)))
      with (pair_text p +:+ ", " +:+ join ", " (map pair_text (q :: ps))).
    rewrite IH. unfold pair_text. now str_norm.
Qed.

(** The argument string of the branch without channels, after the first
    opening quote, and what [format] makes of it. *)
Lemma format_names_from (ws : list string) (w : string) :
  format
    (replace_from (dq +:+ dq) (dq +:+ ", " +:+ dq) 0
       ("{}" +:+ dq +:+ repeat_str (dq +:+ "{}" +:+ dq) (length ws)))
    (w :: ws)
  = Ok (w +:+ dq +:+ more_waves ws).
Proof.
  revert w. induction ws as [|v ws IH]; intros w.
  - reflexivity.
  - cbn [length repeat_str].
    change (format
              (replace_from (dq +:+ dq) (dq +:+ ", " +:+ dq) 0
                 ("{}" +:+ dq +:+ (dq +:+ "{}" +:+ dq) +:+ ?t) ) ?a)
      with (rbind
              (rbind (rbind (rbind (rbind
                 (format (replace_from (dq +:+ dq) (dq +:+ ", " +:+ dq) 0
                            ("{}" +:+ dq +:+ t)) (v :: ws))
                 (fun r => Ok (String "034" r)))
                 (fun r => Ok (String " " r)))
                 (fun r => Ok (String "," r)))
                 (fun r => Ok (String "034" r)))
              (fun r => Ok (w +:+ r))).
    rewrite IH. now str_norm.
Qed.

(** The argument string of the branch with channels, after the first
    opening brace, and what [format] makes of it. *)
Lemma format_pairs_from (ps : list (Z * string)) (c w : string) :
  format
    (String "{"
       (replace_from ("}" +:+ dq +:+ "{") ("}" +:+ dq +:+ ", {") 0
          ("}, " +:+ dq +:+ "{}" +:+ dq
           +:+ repeat_str ("{}, " +:+ dq +:+ "{}" +:+ dq) (length ps))))
    (c :: w :: flat_map flat_pair ps)
  = Ok (c +:+ ", " +:+ dq +:+ w +:+ dq +:+ more_pairs ps).
Proof.
  revert c w. induction ps as [|q ps IH]; intros c w.
  - reflexivity.
  - cbn [length repeat_str flat_map flat_pair app].
    change (format
              (String "{"
                 (replace_from ("}" +:+ dq +:+ "{") ("}" +:+ dq +:+ ", {") 0
                    ("}, " +:+ dq +:+ "{}" +:+ dq
                     +:+ ("{}, " +:+ dq +:+ "{}" +:+ dq) +:+ ?t))) ?a)
      with (rbind (rbind (rbind (rbind (rbind (rbind (rbind (rbind
              (format
                 (String "{"
                    (replace_from ("}" +:+ dq +:+ "{") ("}" +:+ dq +:+ ", {") 0
                       ("}, " +:+ dq +:+ "{}" +:+ dq +:+ t)))
                 (str_of_Z (fst q) :: snd q :: flat_map flat_pair ps))
              (fun r => Ok (String " " r)))
              (fun r => Ok (String "," r)))
              (fun r => Ok (String "034" r)))
              (fun r => Ok (w +:+ r)))
              (fun r => Ok (String "034" r)))
              (fun r => Ok (String " " r)))
              (fun r => Ok (String "," r)))
              (fun r => Ok (c +:+ r))).
    rewrite IH. now str_norm.
Qed.

Lemma combine_length_le {A B} (l : list A) (l' : list B) :
  length l' <= length l -> length (combine l l') = length l'.
Proof. intros H. rewrite length_combine. lia. Qed.

(** C6: the generated program is the header comment and a [while(true)]
    loop around one [playWave] call; its arguments are the quoted wave
    names in order when no channel list is given, and the pairs of channel
    number and quoted name in order when one is given that has a channel
    for every wave.  The two instances are those of the specification. *)
Theorem generate_csv_sequence_program_text :
  (forall (__name__ : string) (wave_names : list string),
      generate_csv_sequence_program __name__ wave_names None
      = Ok (program_text __name__ (join ", " (map quoted wave_names))))
  /\ (forall (__name__ : string) (wave_names : list string) (channels : list Z),
      length wave_names <= length channels ->
      generate_csv_sequence_program __name__ wave_names (Some channels)
      = Ok (program_text __name__
              (join ", " (map pair_text (combine channels wave_names)))))
  /\ (forall __name__ : string,
      generate_csv_sequence_program __name__ ["wave1"; "wave2"] None
      = Ok (program_text __name__
              (dq +:+ "wave1" +:+ dq +:+ ", " +:+ dq +:+ "wave2" +:+ dq)))
  /\ (forall __name__ : string,
      generate_csv_sequence_program __name__ ["wave1"; "wave2"] (Some [0; 1]%Z)
      = Ok (program_text __name__
              ("0, " +:+ dq +:+ "wave1" +:+ dq +:+ ", 1, " +:+ dq +:+ "wave2" +:+ dq))).
Proof.
  assert (Hnone : forall (__name__ : string) (wave_names : list string),
      generate_csv_sequence_program __name__ wave_names None
      = Ok (program_text __name__ (join ", " (map quoted wave_names)))).
  { intros name wave_names. unfold generate_csv_sequence_program.
    cbv zeta.
    assert (Hw : format
                   (replace (dq +:+ dq) (dq +:+ ", " +:+ dq)
                      (repeat_str (dq +:+ "{}" +:+ dq) (length wave_names)))
                   wave_names
                 = Ok (join ", " (map quoted wave_names))).
    { destruct wave_names as [|w ws]; [reflexivity|].
      rewrite join_quoted. cbn [length repeat_str]. unfold replace.
      change (format
                (replace_from (dq +:+ dq) (dq +:+ ", " +:+ dq) 0
                   ((dq +:+ "{}" +:+ dq) +:+ ?t)) ?a)
        with (rbind
                (format
                   (replace_from (dq +:+ dq) (dq +:+ ", " +:+ dq) 0
                      ("{}" +:+ dq +:+ t)) a)
                (fun r => Ok (String "034" r))).
      now rewrite format_names_from. }
    rewrite Hw. cbn [rbind]. apply program_of_waves. }
  assert (Hsome : forall (__name__ : string) (wave_names : list string)
                         (channels : list Z),
      length wave_names <= length channels ->
      generate_csv_sequence_program __name__ wave_names (Some channels)
      = Ok (program_text __name__
              (join ", " (map pair_text (combine channels wave_names))))).
  { intros name wave_names channels Hlen. unfold generate_csv_sequence_program.
    cbv zeta.
    assert (Hw : format
                   (replace ("}" +:+ dq +:+ "{") ("}" +:+ dq +:+ ", {")
                      (repeat_str ("{}, " +:+ dq +:+ "{}" +:+ dq)
                         (length wave_names)))
                   (flat_map (fun pair => [str_of_Z (fst pair); snd pair])
                      (combine channels wave_names))
                 = Ok (join ", " (map pair_text (combine channels wave_names)))).
    { rewrite <- (combine_length_le channels wave_names Hlen).
      change (fun pair : Z * string => [str_of_Z (fst pair); snd pair])
        with flat_pair.
      destruct (combine channels wave_names) as [|p ps]; [reflexivity|].
      rewrite join_pairs. cbn [length repeat_str flat_map flat_pair app].
      exact (format_pairs_from ps (str_of_Z (fst p)) (snd p)). }
    rewrite Hw. cbn [rbind]. apply program_of_waves. }
  split; [exact Hnone|]. split; [exact Hsome|]. split.
  - intros name. apply (Hnone name ["wave1"; "wave2"]).
  - intros name. apply (Hsome name ["wave1"; "wave2"] [0; 1]%Z). simpl. lia.
Qed.

Lemma generate_csv_sequence_program_text_witness :
  generate_csv_sequence_program "ZIHDAWG8" ["a"; "b"; "c"] (Some [2; 5; 7; 8]%Z)
  = Ok (program_text "ZIHDAWG8"
          (join ", " (map pair_text (combine [2; 5; 7; 8]%Z ["a"; "b"; "c"])))).
Proof.
  apply (proj1 (proj2 generate_csv_sequence_program_text)). simpl. lia.
Defined.

(** With fewer channels than waves the text cannot be formatted. *)
Lemma generate_csv_sequence_program_too_few_channels :
  generate_csv_sequence_program "ZIHDAWG8" ["a"; "b"] (Some [0%Z]) = Err IndexError.
Proof. reflexivity. Qed.

(** ** Polling loops *)

Lemma log_extend (e : event) (evs : list event) (w : world) :
  log e (extend evs w) = extend (evs ++ [e]) w.
Proof. unfold log, extend. simpl. now rewrite <- app_assoc. Qed.

Lemma extend_nil (w : world) : extend [] w = w.
Proof. destruct w. unfold extend. simpl. now rewrite app_nil_r. Qed.

Lemma is_call_refl (h : handle) (m : method) (path : string) (a : option pyval) :
  is_call h m path (Call h m path a) = true.
Proof.
  unfold is_call. rewrite Nat.eqb_refl, String.eqb_refl.
  now destruct h.
Qed.

Lemma calls_so_far_app (h : handle) (m : method) (path : string)
    (tr tr' : list event) :
  calls_so_far h m path (tr ++ tr')
  = calls_so_far h m path tr + calls_so_far h m path tr'.
Proof. unfold calls_so_far. now rewrite List.filter_app, List.length_app. Qed.

Lemma calls_so_far_call (h : handle) (m : method) (path : string)
    (a : option pyval) :
  calls_so_far h m path [Call h m path a] = 1.
Proof. unfold calls_so_far. cbn [List.filter]. now rewrite is_call_refl. Qed.

Lemma calls_so_far_polls (h : handle) (m : method) (path : string)
    (seconds : float) (n : nat) :
  calls_so_far h m path (polls h m path seconds n) = S n.
Proof.
  induction n as [|n IH].
  - unfold calls_so_far. cbn [polls List.filter]. now rewrite is_call_refl.
  - unfold calls_so_far in *. cbn [polls List.filter]. rewrite is_call_refl.
    cbn [is_call length]. now rewrite IH.
Qed.

(** A loop that polls one node and sleeps while the answer says so ends
    with the first answer that does not, given fuel for it. *)
Lemma while_poll (h : handle) (m : method) (path : string) (seconds : float)
    (cond : M bool) (answer : nat -> bool) (w0 : world) :
  (forall evs,
      cond (extend evs w0)
      = Returns (answer (calls_so_far h m path (trace w0 ++ evs)))
                (extend (evs ++ [Call h m path None]) w0)) ->
  forall n fuel evs,
    n < fuel ->
    (forall i, i < n -> answer (calls_so_far h m path (trace w0 ++ evs) + i) = true) ->
    answer (calls_so_far h m path (trace w0 ++ evs) + n) = false ->
    while fuel cond (sleep seconds) (extend evs w0)
    = Returns tt (extend (evs ++ polls h m path seconds n) w0).
Proof.
  intros Hcond. induction n as [|n IH]; intros fuel evs Hfuel Hbusy Hdone.
  - destruct fuel as [|fuel]; [lia|].
    cbn [while]. unfold bind. rewrite Hcond.
    rewrite Nat.add_0_r in Hdone. now rewrite Hdone.
  - destruct fuel as [|fuel]; [lia|].
    cbn [while]. unfold bind at 1. rewrite Hcond.
    rewrite <- (Nat.add_0_r (calls_so_far h m path (trace w0 ++ evs))).
    rewrite (Hbusy 0) by lia.
    change (bind (sleep seconds) ?k ?w) with (k tt (log (Sleep seconds) w)).
    cbv beta. rewrite log_extend, <- app_assoc.
    assert (Hc : calls_so_far h m path (trace w0 ++ evs ++ [Call h m path None] ++ [Sleep seconds])
                 = S (calls_so_far h m path (trace w0 ++ evs))).
    { rewrite app_assoc, !calls_so_far_app, calls_so_far_call.
      change (calls_so_far h m path [Sleep seconds]) with 0. lia. }
    rewrite (IH fuel (evs ++ [Call h m path None] ++ [Sleep seconds])%list).
    + cbn [polls]. now rewrite <- app_assoc.
    + lia.
    + intros i Hi. rewrite Hc. replace (S _ + i) with
        (calls_so_far h m path (trace w0 ++ evs) + S i) by lia.
      apply Hbusy. lia.
    + rewrite Hc. replace (S _ + n) with
        (calls_so_far h m path (trace w0 ++ evs) + S n) by lia.
      exact Hdone.
Qed.

(** ** Uploading a sequence program *)

Lemma bind_returns {A B} (c : M A) (k : A -> M B) (w w' : world) (a : A) :
  c w = Returns a w' -> bind c k w = k a w'.
Proof. unfold bind. now intros ->. Qed.

Lemma call_write_extend (h : handle) (m : method) (path : string) (v : pyval)
    (evs : list event) (w : world) :
  call_write h m path v (extend evs w)
  = Returns tt (extend (evs ++ [Call h m path (Some v)]) w).
Proof. unfold call_write. now rewrite log_extend. Qed.

Lemma call_getInt_extend (h : handle) (path : string) (evs : list event)
    (w : world) :
  call_getInt h path (extend evs w)
  = Returns (int_reply w h path (calls_so_far h getInt path (trace w ++ evs)))
            (extend (evs ++ [Call h getInt path None]) w).
Proof. unfold call_getInt. now rewrite log_extend. Qed.

Lemma call_getDouble_extend (h : handle) (path : string) (evs : list event)
    (w : world) :
  call_getDouble h path (extend evs w)
  = Returns (double_reply w h path (calls_so_far h getDouble path (trace w ++ evs)))
            (extend (evs ++ [Call h getDouble path None]) w).
Proof. unfold call_getDouble. now rewrite log_extend. Qed.

Lemma call_getString_extend (h : handle) (path : string) (evs : list event)
    (w : world) :
  call_getString h path (extend evs w)
  = Returns (string_reply w h path (calls_so_far h getString path (trace w ++ evs)))
            (extend (evs ++ [Call h getString path None]) w).
Proof. unfold call_getString. now rewrite log_extend. Qed.

Lemma polls_other (h : handle) (m m' : method) (path path' : string)
    (seconds : float) (n : nat) :
  is_call h m' path' (Call h m path None) = false ->
  calls_so_far h m' path' (polls h m path seconds n) = 0.
Proof.
  intros H. unfold calls_so_far.
  induction n as [|n IH]; cbn [polls List.filter]; rewrite H; [reflexivity|].
  cbn [is_call]. exact IH.
Qed.

(** Calls of another kind do not count. *)
Ltac count_other :=
  repeat match goal with
         | |- context [calls_so_far ?h ?m ?p (?e :: ?l)] =>
             change (calls_so_far h m p (e :: l)) with 0
         end.

(** The run up to the read that decides on failure. *)
Lemma upload_until_check (fuel : nat) (awg_number : Z) (sequence_program : string)
    (w : world) (n : nat) (k : Z -> M Z) :
  (forall i, i < n -> status_read w i = (-1)%Z) ->
  status_read w n <> (-1)%Z ->
  n < fuel ->
  (call_write awg_module set "awgModule/index" (PyInt awg_number) ;;
   call_write awg_module set "awgModule/compiler/sourcestring"
              (PyStr sequence_program) ;;
   while fuel
     (status <- call_getInt awg_module "awgModule/compiler/status" ;;
      ret (status =? -1)%Z)
     (sleep 0.1) ;;
   status <- call_getInt awg_module "awgModule/compiler/status" ;;
   k status) w
  = k (status_read w (S n))
      (extend (upload_prefix awg_number sequence_program n) w).
Proof.
  intros Hbusy Hdone Hfuel.
  rewrite <- (extend_nil w) at 1.
  rewrite (bind_returns _ _ _ _ _ (call_write_extend _ _ _ _ _ _)).
  rewrite (bind_returns _ _ _ _ _ (call_write_extend _ _ _ _ _ _)).
  cbn [app].
  set (evs := [Call awg_module set "awgModule/index" (Some (PyInt awg_number));
               Call awg_module set "awgModule/compiler/sourcestring"
                    (Some (PyStr sequence_program))]).
  assert (Hc : calls_so_far awg_module getInt status_node (trace w ++ evs)
               = calls_so_far awg_module getInt status_node (trace w)).
  { rewrite calls_so_far_app.
    change (calls_so_far awg_module getInt status_node evs) with 0. lia. }
  erewrite bind_returns; cycle 1.
  { apply (while_poll awg_module getInt status_node 0.1 _
             (fun c => (int_reply w awg_module status_node c =? -1)%Z) w)
      with (n := n).
    - intros evs'. unfold bind, ret. now rewrite call_getInt_extend.
    - exact Hfuel.
    - intros i Hi. rewrite Hc. apply Z.eqb_eq. now apply Hbusy.
    - rewrite Hc. now apply Z.eqb_neq. }
  erewrite bind_returns by apply call_getInt_extend.
  unfold upload_prefix. fold evs. rewrite <- app_assoc.
  f_equal. unfold status_read. f_equal.
  change "awgModule/compiler/status" with status_node.
  rewrite app_assoc, calls_so_far_app, Hc, calls_so_far_polls. lia.
Qed.

(** C2: when the status read after the in-progress loop is 1, the upload
    raises an error whose message is the status text of the compiler, and
    the calls of the run contain no read of the progress. *)
Theorem upload_failure_raises (fuel : nat) (awg_number : Z)
    (sequence_program : string) (w : world) (n : nat) :
  (forall i, i < n -> status_read w i = (-1)%Z) ->
  status_read w n <> (-1)%Z ->
  status_read w (S n) = 1%Z ->
  n < fuel ->
  upload_sequence_program fuel awg_number sequence_program w
  = Raises (Exception (status_message w))
           (extend (upload_prefix awg_number sequence_program n
                    ++ [Call awg_module getString statusstring_node None]) w)
  /\ calls_so_far awg_module getDouble progress_node
       (upload_prefix awg_number sequence_program n
        ++ [Call awg_module getString statusstring_node None]) = 0.
Proof.
  intros Hbusy Hdone Hfail Hfuel. split.
  - unfold upload_sequence_program.
    rewrite (upload_until_check fuel awg_number sequence_program w n _
               Hbusy Hdone Hfuel).
    rewrite Hfail. cbn [Z.eqb Pos.eqb].
    erewrite bind_returns by apply call_getString_extend.
    unfold raise. f_equal. f_equal. unfold status_message.
    change "awgModule/compiler/statusstring" with statusstring_node.
    f_equal. rewrite calls_so_far_app.
    unfold upload_prefix. rewrite !calls_so_far_app, polls_other by reflexivity.
    count_other. lia.
  - unfold upload_prefix. rewrite !calls_so_far_app, polls_other by reflexivity.
    reflexivity.
Qed.

Lemma upload_failure_raises_witness :
  upload_sequence_program 5 0 "while(true){}" failing_world
  = Raises (Exception (status_message failing_world))
           (extend (upload_prefix 0 "while(true){}" 2
                    ++ [Call awg_module getString statusstring_node None])
                   failing_world)
  /\ calls_so_far awg_module getDouble progress_node
       (upload_prefix 0 "while(true){}" 2
        ++ [Call awg_module getString statusstring_node None]) = 0.
Proof.
  apply (upload_failure_raises 5 0 "while(true){}" failing_world 2).
  - intros i Hi. destruct i as [|[|i]]; [reflexivity | reflexivity | lia].
  - vm_compute. discriminate.
  - reflexivity.
  - lia.
Defined.

(** C1: the docstring of the upload (lines 134-135) gives 1 as the value
    returned for a compilation that succeeded with warnings; the code
    departs from it: with the status at 1 once the compiler is no longer
    busy, and the progress complete, the upload raises with the status
    text and returns nothing. *)
Lemma upload_status_one_raises :
  status_read status_one_world 0 = (-1)%Z
  /\ status_read status_one_world 1 = 1%Z
  /\ status_read status_one_world 2 = 1%Z
  /\ status_read status_one_world 3 = 1%Z
  /\ PrimFloat.ltb (progress_read status_one_world 0) 1 = false
  /\ upload_sequence_program 4 0 "while(true){}" status_one_world
     = Raises (Exception "line 3: warning")
              (extend (upload_prefix 0 "while(true){}" 1
                       ++ [Call awg_module getString statusstring_node None])
                      status_one_world).
Proof. repeat split; reflexivity. Qed.

(** X21: when the status read after the in-progress loop is not 1 and the
    progress then completes, the upload returns the status code it reads
    after the progress polling, having polled the progress until it was
    no longer below 1.0 and slept after every poll that did not end a
    loop. *)
Theorem upload_returns_status (fuel : nat) (awg_number : Z)
    (sequence_program : string) (w : world) (n m : nat) :
  (forall i, i < n -> status_read w i = (-1)%Z) ->
  status_read w n <> (-1)%Z ->
  status_read w (S n) <> 1%Z ->
  (forall j, j < m -> PrimFloat.ltb (progress_read w j) 1 = true) ->
  PrimFloat.ltb (progress_read w m) 1 = false ->
  n < fuel -> m < fuel ->
  upload_sequence_program fuel awg_number sequence_program w
  = Returns (status_read w (S (S n)))
            (extend (upload_prefix awg_number sequence_program n
                     ++ polls awg_module getDouble progress_node 0.1 m
                     ++ [Call awg_module getInt status_node None]) w).
Proof.
  intros Hbusy Hdone Hok Hprog Hfull Hfuel Hfuel'.
  unfold upload_sequence_program.
  rewrite (upload_until_check fuel awg_number sequence_program w n _
             Hbusy Hdone Hfuel).
  apply Z.eqb_neq in Hok. rewrite Hok.
  assert (Hc : calls_so_far awg_module getDouble progress_node
                 (trace w ++ upload_prefix awg_number sequence_program n)
               = calls_so_far awg_module getDouble progress_node (trace w)).
  { rewrite calls_so_far_app. unfold upload_prefix.
    rewrite !calls_so_far_app, polls_other by reflexivity.
    count_other. lia. }
  erewrite bind_returns; cycle 1.
  { apply (while_poll awg_module getDouble progress_node 0.1 _
             (fun c => PrimFloat.ltb (double_reply w awg_module progress_node c) 1) w)
      with (n := m).
    - intros evs'. unfold bind, ret. now rewrite call_getDouble_extend.
    - exact Hfuel'.
    - intros j Hj. rewrite Hc. now apply Hprog.
    - rewrite Hc. exact Hfull. }
  rewrite call_getInt_extend, <- app_assoc. f_equal.
  unfold status_read. f_equal.
  change "awgModule/compiler/status" with status_node.
  rewrite !calls_so_far_app, polls_other by reflexivity.
  unfold upload_prefix. rewrite !calls_so_far_app, calls_so_far_polls.
  rewrite calls_so_far_call. count_other. lia.
Qed.

Lemma upload_returns_status_witness :
  upload_sequence_program 3 0 "while(true){}" success_world
  = Returns 0%Z
            (extend (upload_prefix 0 "while(true){}" 2
                     ++ polls awg_module getDouble progress_node 0.1 1
                     ++ [Call awg_module getInt status_node None]) success_world).
Proof.
  apply (upload_returns_status 3 0 "while(true){}" success_world 2 1).
  - intros i Hi. destruct i as [|[|i]]; [reflexivity | reflexivity | lia].
  - vm_compute. discriminate.
  - vm_compute. discriminate.
  - intros j Hj. destruct j as [|j]; [reflexivity | lia].
  - reflexivity.
  - lia.
  - lia.
Defined.

(** ** Accessors *)

(** C7: for a type tag that is none of the recognized ones, the getter
    returns [None] and the setter returns, both without any call to the
    session and without raising: the world, with its trace, is unchanged. *)
Theorem unrecognized_type_is_ignored (name param_type : string) (value : pyval)
    (w : world) :
  recognized param_type = false ->
  _getter name param_type w = Returns PyNone w
  /\ _setter name param_type value w = Returns tt w.
Proof.
  unfold recognized, _getter, _setter. intros H.
  repeat (apply orb_false_iff in H as [H ?]).
  repeat match goal with E : String.eqb _ _ = false |- _ => rewrite E; clear E end.
  split; reflexivity.
Qed.

Lemma unrecognized_type_is_ignored_witness :
  _getter "/dev8006/stats/cmdstream/bandwidth" "Integer (32 bit)" failing_world
  = Returns PyNone failing_world
  /\ _setter "/dev8006/stats/cmdstream/bandwidth" "Integer (32 bit)" (PyInt 7)
       failing_world
     = Returns tt failing_world.
Proof.
  apply (unrecognized_type_is_ignored _ "Integer (32 bit)"). reflexivity.
Defined.

(** ** The parameter binder *)

Lemma py_in_list (x : string) (l : list string) :
  py_in x (PropList l) = true <-> In x l.
Proof.
  simpl. rewrite existsb_exists. split.
  - intros [y [Hy Heq]]. apply String.eqb_eq in Heq. now subst.
  - intros H. exists x. split; [assumption | apply String.eqb_refl].
Qed.

(** C4: the parameter bound for an entry has a getter, the entry's node
    read by its type, exactly when "Read" is in the entry's properties and
    none otherwise; it has a setter exactly when "Write" is in them and
    none otherwise. *)
Theorem accessors_follow_permissions (parameter : schema_entry) (name : string)
    (p : bound_parameter) :
  bind_entry parameter = Ok (name, p) ->
  (py_in "Read" (Properties parameter) = true
   -> get_cmd p = Some (_getter (Node parameter) (Type_ parameter)))
  /\ (py_in "Read" (Properties parameter) = false -> get_cmd p = None)
  /\ (py_in "Write" (Properties parameter) = true
      -> set_cmd p = Some (_setter (Node parameter) (Type_ parameter)))
  /\ (py_in "Write" (Properties parameter) = false -> set_cmd p = None)
  /\ (is_Some (get_cmd p) <-> py_in "Read" (Properties parameter) = true)
  /\ (is_Some (set_cmd p) <-> py_in "Write" (Properties parameter) = true).
Proof.
  unfold bind_entry. intros H.
  destruct (if String.eqb (Type_ parameter) "Integer (enumerated)"
            then _ else _) as [options|e]; [|discriminate].
  cbn [rbind] in H. injection H as _ <-. cbn [get_cmd set_cmd].
  destruct (py_in "Read" (Properties parameter)),
           (py_in "Write" (Properties parameter));
    repeat split; intros; try discriminate; try reflexivity; try (eexists; reflexivity);
    try (match goal with H : is_Some None |- _ => destruct H; discriminate end).
Qed.

Lemma accessors_follow_permissions_witness :
  (py_in "Read" (Properties temperature_entry) = true
   -> get_cmd (BoundParameter None
                 (Some (_getter (Node temperature_entry) (Type_ temperature_entry)))
                 None "Internal temperature." "degC")
      = Some (_getter (Node temperature_entry) (Type_ temperature_entry)))
  /\ (py_in "Write" (Properties temperature_entry) = false
      -> set_cmd (BoundParameter None
                    (Some (_getter (Node temperature_entry) (Type_ temperature_entry)))
                    None "Internal temperature." "degC")
         = None).
Proof.
  pose proof (accessors_follow_permissions temperature_entry
                "stats_physical_temperatures_0"
                (BoundParameter None
                   (Some (_getter (Node temperature_entry) (Type_ temperature_entry)))
                   None "Internal temperature." "degC")
                eq_refl) as H.
  split; [exact (proj1 H) | exact (proj1 (proj2 (proj2 (proj2 H))))].
Defined.

Lemma validate_enum (ks : list Z) (z : Z) :
  validate (Enum ks) (PyInt z) = true <-> In z ks.
Proof.
  simpl. rewrite existsb_exists. split.
  - intros [y [Hy Heq]]. apply Z.eqb_eq in Heq. now subst.
  - intros H. exists z. split; [assumption | apply Z.eqb_refl].
Qed.

(** C5: an entry of the enumerated-integer type is bound with a validator
    that accepts exactly the integers read from the keys of its options,
    and an entry of any other type with none; setting the parameter of an
    enumerated entry to a value the validator rejects, an integer that is
    not among them for one, raises and leaves the world, with its trace of
    session calls, as it was. *)
Theorem enumerated_entries_are_validated :
  (forall (parameter : schema_entry) (options : list (string * string))
          (ks : list Z),
      Type_ parameter = "Integer (enumerated)" ->
      Options parameter = Some options ->
      rmap_all int (map fst options) = Ok ks ->
      exists p,
        bind_entry parameter = Ok (_generate_parameter_name (Node parameter), p)
        /\ vals p = Some (Enum ks)
        /\ (forall z, validate (Enum ks) (PyInt z) = true <-> In z ks)
        /\ (forall value w,
              validate (Enum ks) value = false ->
              parameter_set p value w
              = Raises (if py_in "Write" (Properties parameter)
                        then ValidationError else NotSettable) w))
  /\ (forall parameter : schema_entry,
      Type_ parameter <> "Integer (enumerated)" ->
      exists p,
        bind_entry parameter = Ok (_generate_parameter_name (Node parameter), p)
        /\ vals p = None).
Proof.
  split.
  - intros parameter options ks Htype Hopt Hks.
    unfold bind_entry. rewrite Htype, Hopt, Hks, String.eqb_refl. cbn [rbind].
    eexists. split; [reflexivity|]. cbn [vals].
    split; [reflexivity|]. split; [apply validate_enum|].
    intros value w Hv. unfold parameter_set. cbn [set_cmd vals].
    destruct (py_in "Write" (Properties parameter)); [|reflexivity].
    now rewrite Hv.
  - intros parameter Htype. unfold bind_entry.
    apply String.eqb_neq in Htype. rewrite Htype. cbn [rbind].
    eexists. split; reflexivity.
Qed.

Lemma enumerated_entries_are_validated_witness :
  exists p,
    bind_entry channelgrouping_entry = Ok ("system_awg_channelgrouping", p)
    /\ vals p = Some (Enum [0; 1; 2]%Z)
    /\ (forall z, validate (Enum [0; 1; 2]%Z) (PyInt z) = true <-> In z [0; 1; 2]%Z)
    /\ (forall value w,
          validate (Enum [0; 1; 2]%Z) value = false ->
          parameter_set p value w = Raises ValidationError w).
Proof.
  apply (proj1 enumerated_entries_are_validated channelgrouping_entry
           [("0", "groups_of_2"); ("1", "groups_of_4"); ("2", "groups_of_8")]
           [0; 1; 2]%Z); reflexivity.
Defined.

(** A key that is no number stops the binder. *)
Lemma enumerated_key_not_a_number :
  bind_entry (SchemaEntry "/DEV8006/SYSTEM/CLOCKS/SOURCE" "Integer (enumerated)"
                (PropText "Read, Write") (Some [("internal", "0")]) "" "None")
  = Err (ValueError "internal").
Proof. reflexivity. Qed.

(** ** The registry *)

Lemma bind_values_app (l1 l2 : list schema_entry) (self : gmap string bound_parameter) :
  bind_values (l1 ++ l2) self
  = match bind_values l1 self with
    | (Ok _, self') => bind_values l2 self'
    | (Err e, self') => (Err e, self')
    end.
Proof.
  revert self. induction l1 as [|x l1 IH]; intros self; [reflexivity|].
  cbn [app bind_values]. destruct (bind_entry x) as [[name p]|e]; [apply IH | reflexivity].
Qed.

(** Entries that bind under other names leave a name's binding alone. *)
Lemma bind_values_other_names (name : string) (l : list schema_entry)
    (self : gmap string bound_parameter) :
  Forall (fun e => exists n p, bind_entry e = Ok (n, p) /\ n <> name) l ->
  exists self', bind_values l self = (Ok tt, self')
                /\ self' !! name = self !! name.
Proof.
  intros H. revert self. induction H as [|x l [n [p [Hx Hn]]] Hl IH]; intros self.
  - exists self. split; reflexivity.
  - cbn [bind_values]. rewrite Hx.
    destruct (IH (add_parameter n p self)) as [self' [Hb Hl']].
    exists self'. split; [exact Hb|].
    rewrite Hl'. unfold add_parameter. now rewrite lookup_insert_ne.
Qed.

Lemma bind_values_all_ok (l : list schema_entry) (self : gmap string bound_parameter) :
  Forall (fun e => exists n p, bind_entry e = Ok (n, p)) l ->
  exists self', bind_values l self = (Ok tt, self').
Proof.
  intros H. revert self. induction H as [|x l [n [p Hx]] Hl IH]; intros self.
  - exists self. reflexivity.
  - cbn [bind_values]. rewrite Hx. apply IH.
Qed.

(** C8: when two entries derive the same name, binding the node tree
    completes without error and the name is registered with the accessor
    built from the entry processed last among those deriving it. *)
Theorem last_binding_wins (parameters : list (string * schema_entry))
    (before between after : list schema_entry) (e1 e2 : schema_entry)
    (name : string) (p1 p2 : bound_parameter) (self : gmap string bound_parameter) :
  map snd parameters = (before ++ e1 :: between ++ e2 :: after)%list ->
  Forall (fun e => exists n p, bind_entry e = Ok (n, p)) before ->
  Forall (fun e => exists n p, bind_entry e = Ok (n, p)) between ->
  Forall (fun e => exists n p, bind_entry e = Ok (n, p) /\ n <> name) after ->
  bind_entry e1 = Ok (name, p1) ->
  bind_entry e2 = Ok (name, p2) ->
  exists self',
    create_parameters_from_node_tree parameters self = (Ok tt, self')
    /\ self' !! name = Some p2.
Proof.
  intros Hpar Hbefore Hbetween Hafter H1 H2.
  unfold create_parameters_from_node_tree. rewrite Hpar.
  rewrite bind_values_app.
  destruct (bind_values_all_ok before self Hbefore) as [s1 ->].
  cbn [bind_values]. rewrite H1, bind_values_app.
  destruct (bind_values_all_ok between (add_parameter name p1 s1) Hbetween)
    as [s2 ->].
  cbn [bind_values]. rewrite H2.
  destruct (bind_values_other_names name after (add_parameter name p2 s2) Hafter)
    as [s3 [-> Hs3]].
  exists s3. split; [reflexivity|].
  rewrite Hs3. unfold add_parameter. apply lookup_insert_eq.
Qed.

Lemma last_binding_wins_witness :
  exists self',
    create_parameters_from_node_tree
      [("a", temperature_entry); ("b", amplitude_entry "DEV1" "V");
       ("c", amplitude_entry "DEV2" "mV"); ("d", channelgrouping_entry)] ∅
    = (Ok tt, self')
    /\ self' !! "sigouts_0_range"
       = Some (BoundParameter
                 (Some (_setter "/DEV2/SIGOUTS/0/RANGE" "Double"))
                 (Some (_getter "/DEV2/SIGOUTS/0/RANGE" "Double"))
                 None "Output range." "mV").
Proof.
  apply (last_binding_wins _ [temperature_entry] [] [channelgrouping_entry]
           (amplitude_entry "DEV1" "V") (amplitude_entry "DEV2" "mV")
           "sigouts_0_range"
           (BoundParameter
              (Some (_setter "/DEV1/SIGOUTS/0/RANGE" "Double"))
              (Some (_getter "/DEV1/SIGOUTS/0/RANGE" "Double"))
              None "Output range." "V")).
  - reflexivity.
  - repeat constructor. eexists _, _. reflexivity.
  - constructor.
  - repeat constructor. eexists _, _. split; [reflexivity | discriminate].
  - reflexivity.
  - reflexivity.
Defined.

(** ** Waveform files *)

(** C9: when the wave directory under the module's directory is missing,
    the export raises an exception whose message names that directory; the
    only effect is the read of the module's directory, and the files are
    those from before. *)
Theorem waveform_to_csv_missing_directory {sample : Type} (str : sample -> string)
    (wave_name : string) (waveforms : list (list sample)) (w : world) :
  isdir w (wave_directory w) = false ->
  waveform_to_csv str wave_name waveforms w
  = Raises (Exception ("AWG module wave directory " +:+ wave_directory w
                       +:+ " does not exist or is not a directory"))
           (log (Call awg_module getString directory_node None) w)
  /\ files (log (Call awg_module getString directory_node None) w) = files w.
Proof.
  intros Hdir. split; [|reflexivity].
  unfold waveform_to_csv, bind, call_getString, os_path_isdir.
  change (isdir (log ?e w) ?d) with (isdir w d).
  fold directory_node. fold (wave_directory w). rewrite Hdir. reflexivity.
Qed.

Lemma waveform_to_csv_missing_directory_witness :
  waveform_to_csv str_of_Z "pulse" [[1; 2]; [3; 4]]%Z
    (scripted_world (fun _ => 0%Z) (fun _ => 1%float) "" "/data" (fun _ => false))
  = Raises (Exception
              "AWG module wave directory /data/awg/waves does not exist or is not a directory")
           (log (Call awg_module getString directory_node None)
              (scripted_world (fun _ => 0%Z) (fun _ => 1%float) "" "/data"
                 (fun _ => false)))
  /\ files (log (Call awg_module getString directory_node None)
              (scripted_world (fun _ => 0%Z) (fun _ => 1%float) "" "/data"
                 (fun _ => false)))
     = ∅.
Proof.
  apply (waveform_to_csv_missing_directory str_of_Z "pulse" [[1; 2]; [3; 4]]%Z
           (scripted_world (fun _ => 0%Z) (fun _ => 1%float) "" "/data"
              (fun _ => false))).
  reflexivity.
Defined.

Lemma min_length_0 {A} (others : list (list A)) : min_length 0 others = 0.
Proof. induction others as [|s l IH]; simpl; [reflexivity | lia]. Qed.

Lemma next_items_none {A} (others : list (list A)) (k : nat) :
  next_items others = None -> min_length k others = 0.
Proof.
  induction others as [|s l IH]; simpl; [discriminate|].
  destruct s as [|x s]; [reflexivity|].
  destruct (next_items l) as [[xs its]|]; [discriminate|].
  intros _. rewrite IH by reflexivity. apply Nat.min_0_r.
Qed.

Lemma next_items_some {A} (others others' : list (list A)) (xs : list A) :
  next_items others = Some (xs, others') ->
  Forall2 (fun wf x => wf !! 0 = Some x) others xs
  /\ Forall2 (fun wf wf' => exists x, wf = x :: wf') others others'
  /\ forall k, min_length (S k) others = S (min_length k others').
Proof.
  revert xs others'. induction others as [|s l IH]; intros xs others' H.
  - injection H as <- <-. repeat split; constructor.
  - simpl in H. destruct s as [|x s]; [discriminate|].
    destruct (next_items l) as [[ys its]|] eqn:Hn; [|discriminate].
    injection H as <- <-. destruct (IH ys its eq_refl) as [H0 [Ht Hm]].
    repeat split.
    + constructor; [reflexivity | exact H0].
    + constructor; [now exists x | exact Ht].
    + intros k. simpl. rewrite Hm. lia.
Qed.

Lemma zip_rounds_length {A} (first : list A) (others : list (list A)) :
  length (zip_rounds first others) = min_length (length first) others.
Proof.
  revert others. induction first as [|x first IH]; intros others.
  - simpl. now rewrite min_length_0.
  - cbn [zip_rounds]. destruct (next_items others) as [[xs others']|] eqn:Hn.
    + destruct (next_items_some _ _ _ Hn) as [_ [_ Hm]].
      cbn [length]. now rewrite IH, Hm.
    + simpl. now rewrite next_items_none.
Qed.

Lemma lookup_tails {A} (others others' : list (list A)) (ys : list A) (i : nat) :
  Forall2 (fun wf wf' => exists x, wf = x :: wf') others others' ->
  Forall2 (fun wf' y => wf' !! i = Some y) others' ys ->
  Forall2 (fun wf y => wf !! S i = Some y) others ys.
Proof.
  intros H. revert ys. induction H as [|wf wf' l l' [x ->] Hl IH]; intros ys Hy.
  - inversion Hy. constructor.
  - inversion Hy as [|? y ? ys' Hwf Hrest]; subst.
    constructor; [exact Hwf | now apply IH].
Qed.

Lemma zip_rounds_lookup {A} (first : list A) (others : list (list A)) (i : nat)
    (row : list A) :
  zip_rounds first others !! i = Some row ->
  Forall2 (fun wf x => wf !! i = Some x) (first :: others) row.
Proof.
  revert others i row. induction first as [|x first IH]; intros others i row H.
  - discriminate.
  - cbn [zip_rounds] in H.
    destruct (next_items others) as [[xs others']|] eqn:Hn; [|discriminate].
    destruct (next_items_some _ _ _ Hn) as [H0 [Ht _]].
    destruct i as [|i].
    + injection H as <-. constructor; [reflexivity | exact H0].
    + cbn in H. apply IH in H.
      inversion H as [|? y ? ys Hy Hrest]; subst.
      constructor; [exact Hy | now apply (lookup_tails others others')].
Qed.

Lemma zip_star_lookup {A} (seqs : list (list A)) (i : nat) (row : list A) :
  zip_star seqs !! i = Some row ->
  Forall2 (fun wf x => wf !! i = Some x) seqs row.
Proof.
  destruct seqs as [|first others]; [discriminate | apply zip_rounds_lookup].
Qed.

Lemma csv_row_plain (fields : list string) :
  Forall (fun f => plain_field f = true) fields ->
  csv_row fields = join ";" fields +:+ crlf.
Proof.
  intros H.
  assert (Hmap : map csv_field fields = fields).
  { induction H as [|f l Hf Hl IH]; [reflexivity|].
    cbn [map]. rewrite IH. unfold csv_field.
    unfold plain_field in Hf. apply andb_true_iff in Hf as [Hf _].
    apply negb_true_iff in Hf. now rewrite Hf. }
  destruct fields as [|f l]; [reflexivity|].
  unfold csv_row. rewrite Hmap.
  destruct f as [|c f]; [|reflexivity].
  inversion H as [|? ? Hf]; subst. discriminate.
Qed.

Lemma rows_plain {sample : Type} (str : sample -> string)
    (waveforms : list (list sample)) (i : nat) (row : list sample) :
  forallb (forallb (fun x => plain_field (str x))) waveforms = true ->
  zip_star waveforms !! i = Some row ->
  Forall (fun f => plain_field f = true) (map str row).
Proof.
  intros Hplain Hrow. apply zip_star_lookup in Hrow.
  rewrite forallb_forall in Hplain.
  induction Hrow as [|wf x l r Hx Hl IH]; [constructor|].
  cbn [map]. constructor.
  - specialize (Hplain wf (or_introl eq_refl)).
    rewrite forallb_forall in Hplain. apply Hplain.
    apply list_elem_of_In. now apply (list_elem_of_lookup_2 wf i).
  - apply IH. intros y Hy. apply Hplain. now right.
Qed.

Lemma rows_text {sample : Type} (str : sample -> string)
    (waveforms : list (list sample)) (rows : list (list sample)) :
  (forall i row, rows !! i = Some row ->
                 Forall (fun f => plain_field f = true) (map str row)) ->
  concat_str (map (fun row => csv_row (map str row)) rows)
  = concat_str (map (fun row => join ";" (map str row) +:+ crlf) rows).
Proof.
  induction rows as [|row rows IH]; intros H; [reflexivity|].
  cbn [map concat_str]. rewrite (csv_row_plain (map str row)) by apply (H 0), eq_refl.
  rewrite IH; [reflexivity|]. intros i r Hr. apply (H (S i)). exact Hr.
Qed.

(** C10: the export writes one row for each index below the length of the
    shortest waveform and no more; row [i] holds the [i]-th sample of
    every waveform in argument order, joined by semicolons.  The samples
    are numbers, whose text the writer leaves bare. *)
Theorem waveform_to_csv_rows {sample : Type} (str : sample -> string)
    (wave_name : string) (waveforms : list (list sample)) (w : world) :
  forallb (forallb (fun x => plain_field (str x))) waveforms = true ->
  isdir w (wave_directory w) = true ->
  can_open w (csv_path w wave_name) = true ->
  length (zip_star waveforms) = shortest waveforms
  /\ (forall i row, zip_star waveforms !! i = Some row ->
        Forall2 (fun wf x => wf !! i = Some x) waveforms row)
  /\ exists w',
      waveform_to_csv str wave_name waveforms w = Returns tt w'
      /\ files w' !! csv_path w wave_name
         = Some (concat_str
                   (map (fun row => join ";" (map str row) +:+ crlf)
                        (zip_star waveforms)))
      /\ forall path, path <> csv_path w wave_name ->
                      files w' !! path = files w !! path.
Proof.
  intros Hplain Hdir Hopen. split; [|split].
  - destruct waveforms as [|first others]; [reflexivity | apply zip_rounds_length].
  - intros i row. apply zip_star_lookup.
  - unfold waveform_to_csv, bind, call_getString, os_path_isdir.
    change (isdir (log ?e w) ?d) with (isdir w d).
    fold directory_node. fold (wave_directory w). rewrite Hdir. cbn [negb].
    fold (csv_path w wave_name). unfold open_w.
    change (can_open (log ?e w) ?d) with (can_open w d). rewrite Hopen.
    unfold writerows, file_write. eexists. split; [reflexivity|].
    cbn [files write_file log]. split.
    + rewrite lookup_insert_eq. cbn [default]. rewrite lookup_insert_eq.
      cbn [default String.append]. f_equal.
      apply (rows_text str waveforms). intros i row. now apply rows_plain.
    + intros path Hpath. now rewrite !lookup_insert_ne by congruence.
Qed.

Lemma waveform_to_csv_rows_witness :
  length (zip_star [[1; 2; 3]; [-1; -2]]%Z) = shortest [[1; 2; 3]; [-1; -2]]%Z
  /\ exists w',
      waveform_to_csv str_of_Z "w" [[1; 2; 3]; [-1; -2]]%Z success_world
      = Returns tt w'
      /\ files w' !! "/data/awg/waves/w.csv"
         = Some ("1;-1" +:+ crlf +:+ "2;-2" +:+ crlf).
Proof.
  destruct (waveform_to_csv_rows str_of_Z "w" [[1; 2; 3]; [-1; -2]]%Z success_world
              eq_refl eq_refl eq_refl) as [Hlen [_ [w' [Hrun [Hfile _]]]]].
  split; [exact Hlen|]. exists w'. split; [exact Hrun | exact Hfile].
Defined.

(** * Further properties of the driver *)

(** ** Accessors of the recognized types *)

(** X1: for a recognized type the getter issues exactly one call to the
    session, a read of the node it is bound to, and returns; it never
    writes. *)
Theorem getter_reads_once (name param_type : string) (w : world) :
  recognized param_type = true ->
  exists m v,
    _getter name param_type w = Returns v (log (Call daq m name None) w)
    /\ is_read m = true.
Proof.
  unfold recognized, _getter. intros H.
  destruct (String.eqb param_type "Integer (64 bit)"
            || String.eqb param_type "Integer (enumerated)") eqn:Hint.
  { eexists getInt, _. split; reflexivity. }
  destruct (String.eqb param_type "Double") eqn:Hdouble.
  { eexists getDouble, _. split; reflexivity. }
  destruct (String.eqb param_type "String") eqn:Hstring.
  { eexists getString, _. split; reflexivity. }
  destruct (String.eqb param_type "ZIVectorData") eqn:Hvector.
  { eexists vectorRead, _. split; reflexivity. }
  discriminate H.
Qed.

Lemma getter_reads_once_witness :
  exists m v,
    _getter "/dev8006/sigouts/0/range" "Double" success_world
    = Returns v (log (Call daq m "/dev8006/sigouts/0/range" None) success_world)
    /\ is_read m = true.
Proof.
  apply (getter_reads_once "/dev8006/sigouts/0/range" "Double" success_world).
  reflexivity.
Defined.

(** X2: for a recognized type the setter issues exactly one call to the
    session, a write of the given value to the node it is bound to; it
    never reads. *)
Theorem setter_writes_once (name param_type : string) (value : pyval) (w : world) :
  recognized param_type = true ->
  exists m,
    _setter name param_type value w
    = Returns tt (log (Call daq m name (Some value)) w)
    /\ is_write m = true.
Proof.
  unfold recognized, _setter. intros H.
  destruct (String.eqb param_type "Integer (64 bit)"
            || String.eqb param_type "Integer (enumerated)") eqn:Hint.
  { exists setInt. split; reflexivity. }
  destruct (String.eqb param_type "Double") eqn:Hdouble.
  { exists setDouble. split; reflexivity. }
  destruct (String.eqb param_type "String") eqn:Hstring.
  { exists setString. split; reflexivity. }
  destruct (String.eqb param_type "ZIVectorData") eqn:Hvector.
  { exists vectorWrite. split; reflexivity. }
  discriminate H.
Qed.

Lemma setter_writes_once_witness :
  exists m,
    _setter "/dev8006/awgs/0/waveform/data" "ZIVectorData"
            (PyList [PyInt 1; PyInt 2]) success_world
    = Returns tt (log (Call daq m "/dev8006/awgs/0/waveform/data"
                         (Some (PyList [PyInt 1; PyInt 2]))) success_world)
    /\ is_write m = true.
Proof.
  apply (setter_writes_once "/dev8006/awgs/0/waveform/data" "ZIVectorData").
  reflexivity.
Defined.

(** ** Failures of the binder *)

Lemma bind_entry_name (parameter : schema_entry) (name : string)
    (p : bound_parameter) :
  bind_entry parameter = Ok (name, p) -> name = derived_name parameter.
Proof.
  unfold bind_entry. intros H.
  destruct (if String.eqb (Type_ parameter) "Integer (enumerated)"
            then _ else _) as [options|e]; [|discriminate].
  cbn [rbind] in H. now injection H as <- _.
Qed.

Lemma rmap_all_first_error (keys before after : list string) (key : string) :
  keys = (before ++ key :: after)%list ->
  Forall (fun k => exists z, int k = Ok z) before ->
  (forall z, int key <> Ok z) ->
  rmap_all int keys = Err (ValueError key).
Proof.
  intros -> Hbefore Hkey.
  induction Hbefore as [|k l [z Hz] Hl IH]; cbn [app rmap_all].
  - unfold int in *.
    destruct (match strip key with
              | String "-" d => option_map Z.opp (int_digits 0 false d)
              | String "+" d => int_digits 0 false d
              | _ => int_digits 0 false (strip key)
              end) as [z|]; [now destruct (Hkey z) | reflexivity].
  - rewrite Hz. cbn [rbind]. now rewrite IH.
Qed.

(** X3: for an entry of the enumerated-integer type the body of the
    binder's loop raises a [KeyError] for "Options" when the entry has no
    options, and the [ValueError] of the first option key that [int] does
    not accept when it accepts the keys before it; both before a validator
    is built or a parameter added. *)
Theorem enumerated_entry_errors (parameter : schema_entry) :
  Type_ parameter = "Integer (enumerated)" ->
  (Options parameter = None ->
   bind_entry parameter = Err (KeyError "Options"))
  /\ (forall options before key after,
        Options parameter = Some options ->
        map fst options = (before ++ key :: after)%list ->
        Forall (fun k => exists z, int k = Ok z) before ->
        (forall z, int key <> Ok z) ->
        bind_entry parameter = Err (ValueError key)).
Proof.
  intros Htype. unfold bind_entry. rewrite Htype, String.eqb_refl. split.
  - intros ->. reflexivity.
  - intros options before key after -> Hkeys Hbefore Hkey.
    now rewrite (rmap_all_first_error _ before after key Hkeys Hbefore Hkey).
Qed.

Lemma enumerated_entry_errors_witness :
  bind_entry (SchemaEntry "/DEV8006/SYSTEM/CLOCKS/SOURCE" "Integer (enumerated)"
                (PropText "Read, Write")
                (Some [("0", "internal"); ("external", "1"); ("2", "zsync")])
                "" "None")
  = Err (ValueError "external").
Proof.
  apply (proj2 (enumerated_entry_errors
                  (SchemaEntry "/DEV8006/SYSTEM/CLOCKS/SOURCE" "Integer (enumerated)"
                     (PropText "Read, Write")
                     (Some [("0", "internal"); ("external", "1"); ("2", "zsync")])
                     "" "None") eq_refl)
           [("0", "internal"); ("external", "1"); ("2", "zsync")]
           ["0"] "external" ["2"]).
  - reflexivity.
  - reflexivity.
  - repeat constructor. exists 0%Z. reflexivity.
  - intros z. vm_compute. discriminate.
Defined.

(** X4: an entry that cannot be bound stops the binder with the error of
    that entry: the entries before it are registered as if the tree had
    ended there, and those after it are not looked at. *)
Theorem binding_stops_at_first_failure (parameters : list (string * schema_entry))
    (before after : list schema_entry) (bad : schema_entry) (e : exn)
    (self : gmap string bound_parameter) :
  map snd parameters = (before ++ bad :: after)%list ->
  Forall binds before ->
  bind_entry bad = Err e ->
  create_parameters_from_node_tree parameters self
  = (Err e, snd (bind_values before self))
  /\ fst (bind_values before self) = Ok tt.
Proof.
  intros Hpar Hbefore Hbad. unfold create_parameters_from_node_tree.
  rewrite Hpar, bind_values_app.
  destruct (bind_values_all_ok before self Hbefore) as [s1 ->].
  cbn [bind_values fst snd]. now rewrite Hbad.
Qed.

Lemma binding_stops_at_first_failure_witness :
  create_parameters_from_node_tree
    [("0", temperature_entry);
     ("1", SchemaEntry "/DEV8006/SYSTEM/CLOCKS/SOURCE" "Integer (enumerated)"
             (PropText "Read, Write") None "" "None");
     ("2", channelgrouping_entry)] ∅
  = (Err (KeyError "Options"), snd (bind_values [temperature_entry] ∅))
  /\ fst (bind_values [temperature_entry] ∅) = Ok tt.
Proof.
  apply (binding_stops_at_first_failure _ [temperature_entry]
           [channelgrouping_entry]
           (SchemaEntry "/DEV8006/SYSTEM/CLOCKS/SOURCE" "Integer (enumerated)"
              (PropText "Read, Write") None "" "None")).
  - reflexivity.
  - repeat constructor. eexists _, _. reflexivity.
  - reflexivity.
Defined.

Lemma bind_values_registry (values : list schema_entry)
    (self self' : gmap string bound_parameter) (name : string) :
  bind_values values self = (Ok tt, self') ->
  (is_Some (self' !! name)
   <-> is_Some (self !! name)
       \/ Exists (fun parameter => derived_name parameter = name) values)
  /\ (Forall (fun parameter => derived_name parameter <> name) values
      -> self' !! name = self !! name).
Proof.
  revert self.
  induction values as [|x values IH]; intros self H.
  - injection H as <-. split.
    + split; [now left|]. intros [H|H]; [assumption | inversion H].
    + reflexivity.
  - cbn [bind_values] in H.
    destruct (bind_entry x) as [[n p]|e] eqn:Hx; [|discriminate].
    apply bind_entry_name in Hx. destruct (IH _ H) as [IH1 IH2]. split.
    + rewrite IH1. unfold add_parameter. rewrite Exists_cons.
      destruct (decide (n = name)) as [->|Hn].
      * rewrite lookup_insert_eq. split; [|intros _; left; eauto].
        intros _. right. left. now symmetry.
      * rewrite lookup_insert_ne by assumption. subst n. split.
        -- intros [H1|H1]; [now left | right; now right].
        -- intros [H1|[H1|H1]]; [now left | contradiction | now right].
    + intros Hall. inversion Hall as [|? ? Hfirst Hrest]; subst.
      rewrite (IH2 Hrest). unfold add_parameter.
      apply lookup_insert_ne. congruence.
Qed.

(** X5: after a binding that completes, a name is registered exactly when
    it was registered before or is derived from an entry of the tree, and
    a name that no entry derives keeps the parameter it had, or none. *)
Theorem binding_registers_derived_names (parameters : list (string * schema_entry))
    (self self' : gmap string bound_parameter) (name : string) :
  create_parameters_from_node_tree parameters self = (Ok tt, self') ->
  (is_Some (self' !! name)
   <-> is_Some (self !! name)
       \/ Exists (fun parameter => derived_name parameter = name)
                 (map snd parameters))
  /\ (Forall (fun parameter => derived_name parameter <> name) (map snd parameters)
      -> self' !! name = self !! name).
Proof. apply bind_values_registry. Qed.

Lemma binding_registers_derived_names_witness :
  (is_Some (snd (bind_values [temperature_entry; channelgrouping_entry] ∅)
            !! "system_awg_channelgrouping")
   <-> is_Some ((∅ : gmap string bound_parameter) !! "system_awg_channelgrouping")
       \/ Exists (fun parameter => derived_name parameter = "system_awg_channelgrouping")
                 (map snd [("0", temperature_entry); ("1", channelgrouping_entry)]))
  /\ (Forall (fun parameter => derived_name parameter <> "system_awg_channelgrouping")
             (map snd [("0", temperature_entry); ("1", channelgrouping_entry)])
      -> snd (bind_values [temperature_entry; channelgrouping_entry] ∅)
           !! "system_awg_channelgrouping"
         = (∅ : gmap string bound_parameter) !! "system_awg_channelgrouping").
Proof.
  apply (binding_registers_derived_names
           [("0", temperature_entry); ("1", channelgrouping_entry)] ∅).
  reflexivity.
Defined.

(** ** Shape of the derived names *)

Lemma lower_char_slash (c : ascii) :
  Ascii.eqb (lower_char c) "/" = Ascii.eqb c "/".
Proof. destruct c as [[] [] [] [] [] [] [] []]; reflexivity. Qed.

Lemma lower_char_fixed (c : ascii) : lower_char (lower_char c) = lower_char c.
Proof. destruct c as [[] [] [] [] [] [] [] []]; reflexivity. Qed.

Lemma lower_fixed (s : string) : lower (lower s) = lower s.
Proof.
  induction s as [|c s IH]; [reflexivity|].
  cbn [lower]. now rewrite lower_char_fixed, IH.
Qed.

Lemma slash_free_intro (c : ascii) (s : string) :
  Ascii.eqb c "/" = false -> slash_free s -> slash_free (String c s).
Proof.
  unfold slash_free. intros Hc Hs. cbn [contains startswith].
  now rewrite (Ascii.eqb_sym "/" c), Hc, Hs.
Qed.

Lemma slash_free_app (a b : string) :
  slash_free a -> slash_free b -> slash_free (a +:+ b).
Proof.
  induction a as [|c a IH]; intros Ha Hb; [exact Hb|].
  apply slash_free_cons in Ha as [Hc Ha]. simpl.
  apply slash_free_intro; auto.
Qed.

Lemma slash_free_lower (s : string) : slash_free s -> slash_free (lower s).
Proof.
  induction s as [|c s IH]; intros H; [exact H|].
  apply slash_free_cons in H as [Hc Hs]. cbn [lower].
  apply slash_free_intro; [now rewrite lower_char_slash | auto].
Qed.

Lemma slash_free_join (l : list string) :
  Forall slash_free l -> slash_free (join "_" l).
Proof.
  induction 1 as [|x l Hx Hl IH]; [reflexivity|].
  destruct l as [|y l]; [exact Hx|].
  change (join "_" (x :: y :: l)) with (x +:+ "_" +:+ join "_" (y :: l)).
  repeat apply slash_free_app; auto. reflexivity.
Qed.

(** X6: the derived name does not depend on the first two segments of the
    path: nodes of different devices that agree from the third segment on
    derive the same name. *)
Theorem name_ignores_first_two_segments (a b a' b' : string)
    (rest : list string) :
  Forall slash_free (a :: b :: rest) ->
  slash_free a' -> slash_free b' ->
  _generate_parameter_name (join "/" (a :: b :: rest))
  = _generate_parameter_name (join "/" (a' :: b' :: rest)).
Proof.
  intros Hall Ha' Hb'. unfold _generate_parameter_name.
  rewrite !split_join; try discriminate; [reflexivity | | assumption].
  inversion Hall as [|? ? _ Hrest]; subst.
  inversion Hrest as [|? ? _ Hrest']; subst.
  repeat constructor; assumption.
Qed.

Lemma name_ignores_first_two_segments_witness :
  _generate_parameter_name (join "/" [""; "dev8006"; "sigouts"; "0"; "on"])
  = _generate_parameter_name (join "/" [""; "dev8122"; "sigouts"; "0"; "on"]).
Proof.
  apply (name_ignores_first_two_segments "" "dev8006" "" "dev8122"
           ["sigouts"; "0"; "on"]).
  - repeat constructor.
  - reflexivity.
  - reflexivity.
Defined.

(** X7: a derived name contains no slash and no upper-case letter:
    lower-casing it again changes nothing. *)
Theorem derived_name_shape (node : string) :
  slash_free (_generate_parameter_name node)
  /\ lower (_generate_parameter_name node) = _generate_parameter_name node.
Proof.
  unfold _generate_parameter_name. split; [|apply lower_fixed].
  apply slash_free_lower, slash_free_join.
  apply Forall_drop, split_segments_slash_free.
Qed.

(** X8: a path of at most two segments, one with fewer than two slashes,
    derives the empty name. *)
Theorem short_path_has_empty_name (segs : list string) :
  Forall slash_free segs ->
  length segs <= 2 ->
  _generate_parameter_name (join "/" segs) = EmptyString.
Proof.
  intros Hsegs Hlen. unfold _generate_parameter_name.
  destruct segs as [|a [|b [|c l]]]; [reflexivity | | |simpl in Hlen; lia];
    rewrite split_join by (assumption || discriminate); reflexivity.
Qed.

Lemma short_path_has_empty_name_witness :
  _generate_parameter_name (join "/" [""; "dev8006"]) = EmptyString.
Proof.
  apply (short_path_has_empty_name [""; "dev8006"]).
  - repeat constructor.
  - simpl. lia.
Defined.

(** ** Sequence programs: mismatched channels, the header *)

Lemma generate_by_arguments (__name__ : string) (wave_names : list string)
    (channels : option (list Z)) :
  generate_csv_sequence_program __name__ wave_names channels
  = rbind (argument_text wave_names channels)
          (fun waves => Ok (program_text __name__ waves)).
Proof.
  unfold generate_csv_sequence_program. cbv zeta.
  change (format ("// generated by {}" +:+ nl) [__name__])
    with (Ok ("// generated by " +:+ __name__ +:+ nl)).
  cbn [rbind]. fold (argument_text wave_names channels).
  destruct (argument_text wave_names channels) as [waves|e]; [|reflexivity].
  cbn [rbind]. pose proof (program_of_waves __name__ waves) as H.
  change (format ("// generated by {}" +:+ nl) [__name__])
    with (Ok ("// generated by " +:+ __name__ +:+ nl)) in H.
  exact H.
Qed.

(** With a pair of placeholders more than there are pairs of arguments,
    [format] runs out of arguments. *)
Lemma format_pairs_short_from (ps : list (Z * string)) (m : nat) (c w : string) :
  length ps < m ->
  format
    (String "{"
       (replace_from ("}" +:+ dq +:+ "{") ("}" +:+ dq +:+ ", {") 0
          ("}, " +:+ dq +:+ "{}" +:+ dq
           +:+ repeat_str ("{}, " +:+ dq +:+ "{}" +:+ dq) m)))
    (c :: w :: flat_map flat_pair ps)
  = Err IndexError.
Proof.
  revert m c w. induction ps as [|q ps IH]; intros m c w Hm;
    (destruct m as [|m]; [simpl in Hm; lia|]).
  - reflexivity.
  - cbn [length repeat_str flat_map flat_pair app].
    change (format
              (String "{"
                 (replace_from ("}" +:+ dq +:+ "{") ("}" +:+ dq +:+ ", {") 0
                    ("}, " +:+ dq +:+ "{}" +:+ dq
                     +:+ ("{}, " +:+ dq +:+ "{}" +:+ dq) +:+ ?t))) ?a)
      with (rbind (rbind (rbind (rbind (rbind (rbind (rbind (rbind
              (format
                 (String "{"
                    (replace_from ("}" +:+ dq +:+ "{") ("}" +:+ dq +:+ ", {") 0
                       ("}, " +:+ dq +:+ "{}" +:+ dq +:+ t)))
                 (str_of_Z (fst q) :: snd q :: flat_map flat_pair ps))
              (fun r => Ok (String " " r)))
              (fun r => Ok (String "," r)))
              (fun r => Ok (String "034" r)))
              (fun r => Ok (w +:+ r)))
              (fun r => Ok (String "034" r)))
              (fun r => Ok (String " " r)))
              (fun r => Ok (String "," r)))
              (fun r => Ok (c +:+ r))).
    rewrite IH by (simpl in Hm; lia). reflexivity.
Qed.

Lemma combine_surplus {A B} (l extra : list A) (l' : list B) :
  length l' <= length l -> combine (l ++ extra)%list l' = combine l l'.
Proof.
  revert l'. induction l as [|x l IH]; intros [|y l'] H; simpl in *;
    try reflexivity; try lia.
  - now destruct extra.
  - f_equal. apply IH. lia.
Qed.

(** X9: a channel list shorter than the wave list makes the generation
    fail with an [IndexError], as the text has more placeholders than
    there are arguments; channels beyond the number of waves are ignored. *)
Theorem mismatched_channels (__name__ : string) (wave_names : list string)
    (channels extra : list Z) :
  (length channels < length wave_names ->
   generate_csv_sequence_program __name__ wave_names (Some channels)
   = Err IndexError)
  /\ (length wave_names <= length channels ->
      generate_csv_sequence_program __name__ wave_names (Some (channels ++ extra)%list)
      = generate_csv_sequence_program __name__ wave_names (Some channels)).
Proof.
  split.
  - intros Hlen. rewrite generate_by_arguments.
    assert (Hw : argument_text wave_names (Some channels) = Err IndexError);
      [|now rewrite Hw].
    unfold argument_text.
    change (fun pair : Z * string => [str_of_Z (fst pair); snd pair])
      with flat_pair.
    assert (Hps : length (combine channels wave_names) < length wave_names)
      by (rewrite length_combine; lia).
    destruct (length wave_names) as [|m]; [lia|].
    destruct (combine channels wave_names) as [|p ps]; [reflexivity|].
    cbn [repeat_str flat_map flat_pair app]. unfold replace.
    apply (format_pairs_short_from ps m (str_of_Z (fst p)) (snd p)).
    simpl in Hps. lia.
  - intros Hlen. unfold generate_csv_sequence_program.
    now rewrite combine_surplus.
Qed.

Lemma mismatched_channels_witness :
  generate_csv_sequence_program "ZIHDAWG8" ["a"; "b"; "c"] (Some [0; 1]%Z)
  = Err IndexError
  /\ generate_csv_sequence_program "ZIHDAWG8" ["a"; "b"] (Some ([0; 1]%Z ++ [2; 3]%Z)%list)
     = generate_csv_sequence_program "ZIHDAWG8" ["a"; "b"] (Some [0; 1]%Z).
Proof.
  split.
  - apply (proj1 (mismatched_channels "ZIHDAWG8" ["a"; "b"; "c"] [0; 1]%Z [])).
    simpl. lia.
  - apply (proj2 (mismatched_channels "ZIHDAWG8" ["a"; "b"] [0; 1]%Z [2; 3]%Z)).
    simpl. lia.
Defined.

Lemma replace_absent (old new s : string) :
  contains old s = false -> replace old new s = s.
Proof.
  unfold replace. induction s as [|c s IH]; intros H; [reflexivity|].
  cbn [contains] in H. apply orb_false_iff in H as [Hhere Hlater].
  cbn [replace_from]. rewrite Hhere. now rewrite (IH Hlater).
Qed.

Lemma startswith_app (p s : string) : startswith p (p +:+ s) = true.
Proof.
  induction p as [|c p IH]; [reflexivity|].
  simpl. now rewrite Ascii.eqb_refl, IH.
Qed.

(** X10: a generated program starts with an empty line and the comment
    that names the module, word for word, when the module's name does not
    contain the placeholder of the wave list. *)
Theorem program_starts_with_header (__name__ : string) (wave_names : list string)
    (channels : option (list Z)) (text : string) :
  contains "WAVES" __name__ = false ->
  generate_csv_sequence_program __name__ wave_names channels = Ok text ->
  startswith (nl +:+ "// generated by " +:+ __name__ +:+ nl) text = true.
Proof.
  intros Hname. rewrite generate_by_arguments.
  destruct (argument_text wave_names channels) as [waves|e]; [|discriminate].
  cbn [rbind]. intros H. injection H as <-.
  unfold program_text. rewrite (replace_absent _ _ _ Hname).
  assert (E : forall r,
             nl +:+ "// generated by " +:+ __name__ +:+ nl +:+ r
             = (nl +:+ "// generated by " +:+ __name__ +:+ nl) +:+ r)
    by (intros r; now rewrite !app_assoc_str).
  rewrite E. apply startswith_app.
Qed.

Lemma program_starts_with_header_witness :
  startswith (nl +:+ "// generated by " +:+ "qcodes.ZIHDAWG8" +:+ nl)
    (program_text "qcodes.ZIHDAWG8" (join ", " (map quoted ["a"; "b"]))) = true.
Proof.
  apply (program_starts_with_header "qcodes.ZIHDAWG8" ["a"; "b"] None).
  - reflexivity.
  - reflexivity.
Defined.

(** ** Uploads that do not come back *)

(** A polling loop whose every answer within the fuel says to go on is
    still polling when the fuel is spent. *)
Lemma while_starved (h : handle) (m : method) (path : string) (seconds : float)
    (cond : M bool) (answer : nat -> bool) (w0 : world) :
  (forall evs,
      cond (extend evs w0)
      = Returns (answer (calls_so_far h m path (trace w0 ++ evs)))
                (extend (evs ++ [Call h m path None]) w0)) ->
  forall fuel evs,
    (forall i, i < fuel ->
               answer (calls_so_far h m path (trace w0 ++ evs) + i) = true) ->
    while fuel cond (sleep seconds) (extend evs w0) = OutOfFuel.
Proof.
  intros Hcond. induction fuel as [|fuel IH]; intros evs Hbusy; [reflexivity|].
  cbn [while]. unfold bind at 1. rewrite Hcond.
  rewrite <- (Nat.add_0_r (calls_so_far h m path (trace w0 ++ evs))).
  rewrite (Hbusy 0) by lia.
  change (bind (sleep seconds) ?k ?w) with (k tt (log (Sleep seconds) w)).
  cbv beta. rewrite log_extend, <- app_assoc.
  apply IH. intros i Hi.
  replace (calls_so_far h m path
             (trace w0 ++ evs ++ [Call h m path None] ++ [Sleep seconds]) + i)
    with (calls_so_far h m path (trace w0 ++ evs) + S i); [apply Hbusy; lia|].
  rewrite (app_assoc (trace w0)), !calls_so_far_app, calls_so_far_call.
  change (calls_so_far h m path [Sleep seconds]) with 0. lia.
Qed.

Lemma bind_out_of_fuel {A B} (c : M A) (k : A -> M B) (w : world) :
  c w = OutOfFuel -> bind c k w = OutOfFuel.
Proof. unfold bind. now intros ->. Qed.

Lemma upload_starved (fuel : nat) (awg_number : Z) (sequence_program : string)
    (w : world) :
  (forall i, i < fuel -> status_read w i = (-1)%Z) ->
  upload_sequence_program fuel awg_number sequence_program w = OutOfFuel.
Proof.
  intros Hbusy. unfold upload_sequence_program.
  rewrite <- (extend_nil w) at 1.
  rewrite (bind_returns _ _ _ _ _ (call_write_extend _ _ _ _ _ _)).
  rewrite (bind_returns _ _ _ _ _ (call_write_extend _ _ _ _ _ _)).
  cbn [app]. apply bind_out_of_fuel.
  set (evs := [Call awg_module set "awgModule/index" (Some (PyInt awg_number));
               Call awg_module set "awgModule/compiler/sourcestring"
                    (Some (PyStr sequence_program))]).
  apply (while_starved awg_module getInt status_node 0.1 _
           (fun c => (int_reply w awg_module status_node c =? -1)%Z) w).
  - intros evs'. unfold bind, ret. now rewrite call_getInt_extend.
  - intros i Hi. apply Z.eqb_eq.
    rewrite calls_so_far_app.
    change (calls_so_far awg_module getInt status_node evs) with 0.
    rewrite Nat.add_0_r. now apply Hbusy.
Qed.

(** X11: there is no timeout on the compiler: while every status read is
    the in-progress sentinel the upload neither returns nor raises,
    however many polls it is given. *)
Theorem upload_waits_for_compiler (fuel : nat) (awg_number : Z)
    (sequence_program : string) (w : world) :
  (forall k, status_read w k = (-1)%Z) ->
  upload_sequence_program fuel awg_number sequence_program w = OutOfFuel.
Proof. intros Hbusy. apply upload_starved. intros i _. apply Hbusy. Qed.

Lemma upload_waits_for_compiler_witness :
  upload_sequence_program 1000 0 "while(true){}"
    (scripted_world (fun _ => (-1)%Z) (fun _ => 1%float) "" "/data" (fun _ => true))
  = OutOfFuel.
Proof.
  apply (upload_waits_for_compiler 1000 0 "while(true){}"
           (scripted_world (fun _ => (-1)%Z) (fun _ => 1%float) "" "/data"
              (fun _ => true))).
  intros k. reflexivity.
Defined.

(** X12: there is no timeout on the progress either: after a compilation
    that did not fail, while every progress read is below 1.0 the upload
    neither returns nor raises, however many polls it is given. *)
Theorem upload_waits_for_progress (fuel : nat) (awg_number : Z)
    (sequence_program : string) (w : world) (n : nat) :
  (forall i, i < n -> status_read w i = (-1)%Z) ->
  status_read w n <> (-1)%Z ->
  status_read w (S n) <> 1%Z ->
  (forall j, PrimFloat.ltb (progress_read w j) 1 = true) ->
  upload_sequence_program fuel awg_number sequence_program w = OutOfFuel.
Proof.
  intros Hbusy Hdone Hok Hprog.
  destruct (le_lt_dec fuel n) as [Hle|Hlt].
  { apply upload_starved. intros i Hi. apply Hbusy. lia. }
  unfold upload_sequence_program.
  rewrite (upload_until_check fuel awg_number sequence_program w n _
             Hbusy Hdone Hlt).
  apply Z.eqb_neq in Hok. rewrite Hok.
  apply bind_out_of_fuel.
  apply (while_starved awg_module getDouble progress_node 0.1 _
           (fun c => PrimFloat.ltb (double_reply w awg_module progress_node c) 1) w).
  - intros evs'. unfold bind, ret. now rewrite call_getDouble_extend.
  - intros j _. rewrite calls_so_far_app. unfold upload_prefix.
    rewrite !calls_so_far_app, polls_other by reflexivity.
    count_other. rewrite !Nat.add_0_r. apply Hprog.
Qed.

Lemma upload_waits_for_progress_witness :
  upload_sequence_program 1000 0 "while(true){}"
    (scripted_world (fun k => if (k <? 2)%nat then (-1)%Z else 0%Z)
       (fun _ => 0.5%float) "" "/data" (fun _ => true))
  = OutOfFuel.
Proof.
  apply (upload_waits_for_progress 1000 0 "while(true){}"
           (scripted_world (fun k => if (k <? 2)%nat then (-1)%Z else 0%Z)
              (fun _ => 0.5%float) "" "/data" (fun _ => true)) 2).
  - intros i Hi. destruct i as [|[|i]]; [reflexivity | reflexivity | lia].
  - vm_compute. discriminate.
  - vm_compute. discriminate.
  - intros j. reflexivity.
Defined.

(** ** The driver's methods on bound parameters *)

(** Setting by name a parameter that the binder made of a writable entry
    without validator is the setter of that entry. *)
Lemma instrument_set_bound (self : gmap string bound_parameter) (name : string)
    (parameter : schema_entry) (p : bound_parameter) (value : pyval) :
  self !! name = Some p ->
  bind_entry parameter = Ok (name, p) ->
  py_in "Write" (Properties parameter) = true ->
  Type_ parameter <> "Integer (enumerated)" ->
  instrument_set self name value
  = _setter (Node parameter) (Type_ parameter) value.
Proof.
  intros Hself Hbind Hwrite Htype. unfold instrument_set. rewrite Hself.
  unfold bind_entry in Hbind. apply String.eqb_neq in Htype.
  rewrite Htype, Hwrite in Hbind. cbn [rbind] in Hbind.
  injection Hbind as _ <-. reflexivity.
Qed.

(** X13: when the parameter "sigouts_<n>_on" is bound to a writable 64-bit
    integer node, enabling output n is exactly one integer write of 1 to
    that node and disabling it exactly one integer write of 0. *)
Theorem channel_switch_writes (self : gmap string bound_parameter)
    (channel_number : Z) (parameter : schema_entry) (p : bound_parameter)
    (w : world) :
  self !! channel_parameter channel_number = Some p ->
  bind_entry parameter = Ok (channel_parameter channel_number, p) ->
  Type_ parameter = "Integer (64 bit)" ->
  py_in "Write" (Properties parameter) = true ->
  enable_channel self channel_number w
  = Returns tt (log (Call daq setInt (Node parameter) (Some (PyInt 1))) w)
  /\ disable_channel self channel_number w
     = Returns tt (log (Call daq setInt (Node parameter) (Some (PyInt 0))) w).
Proof.
  intros Hself Hbind Htype Hwrite.
  assert (Hne : Type_ parameter <> "Integer (enumerated)")
    by (rewrite Htype; discriminate).
  unfold enable_channel, disable_channel.
  change (format "sigouts_{}_on" [str_of_Z channel_number])
    with (Ok (channel_parameter channel_number)).
  unfold lift, bind, ret.
  rewrite !(instrument_set_bound self _ parameter p _ Hself Hbind Hwrite Hne).
  rewrite Htype. split; reflexivity.
Qed.

Lemma channel_switch_writes_witness :
  enable_channel hdawg 0 success_world
  = Returns tt (log (Call daq setInt "/DEV8006/SIGOUTS/0/ON" (Some (PyInt 1)))
                  success_world)
  /\ disable_channel hdawg 0 success_world
     = Returns tt (log (Call daq setInt "/DEV8006/SIGOUTS/0/ON" (Some (PyInt 0)))
                     success_world).
Proof.
  apply (channel_switch_writes hdawg 0
           (SchemaEntry "/DEV8006/SIGOUTS/0/ON" "Integer (64 bit)"
              (PropText "Read, Write, Setting") None "Enables the output." "None")
           (BoundParameter
              (Some (_setter "/DEV8006/SIGOUTS/0/ON" "Integer (64 bit)"))
              (Some (_getter "/DEV8006/SIGOUTS/0/ON" "Integer (64 bit)"))
              None "Enables the output." "None")).
  - vm_compute. reflexivity.
  - reflexivity.
  - reflexivity.
  - reflexivity.
Defined.

(** X14: when the parameter "awgs_<n>_enable" is bound to a writable
    64-bit integer node, starting sequencer n is exactly one integer write
    of 1 to that node and stopping it exactly one integer write of 0. *)
Theorem awg_switch_writes (self : gmap string bound_parameter)
    (awg_number : Z) (parameter : schema_entry) (p : bound_parameter)
    (w : world) :
  self !! awg_parameter awg_number "_enable" = Some p ->
  bind_entry parameter = Ok (awg_parameter awg_number "_enable", p) ->
  Type_ parameter = "Integer (64 bit)" ->
  py_in "Write" (Properties parameter) = true ->
  start_awg self awg_number w
  = Returns tt (log (Call daq setInt (Node parameter) (Some (PyInt 1))) w)
  /\ stop_awg self awg_number w
     = Returns tt (log (Call daq setInt (Node parameter) (Some (PyInt 0))) w).
Proof.
  intros Hself Hbind Htype Hwrite.
  assert (Hne : Type_ parameter <> "Integer (enumerated)")
    by (rewrite Htype; discriminate).
  unfold start_awg, stop_awg.
  change (format "awgs_{}_enable" [str_of_Z awg_number])
    with (Ok (awg_parameter awg_number "_enable")).
  unfold lift, bind, ret.
  rewrite !(instrument_set_bound self _ parameter p _ Hself Hbind Hwrite Hne).
  rewrite Htype. split; reflexivity.
Qed.

Lemma awg_switch_writes_witness :
  start_awg hdawg 0 success_world
  = Returns tt (log (Call daq setInt "/DEV8006/AWGS/0/ENABLE" (Some (PyInt 1)))
                  success_world)
  /\ stop_awg hdawg 0 success_world
     = Returns tt (log (Call daq setInt "/DEV8006/AWGS/0/ENABLE" (Some (PyInt 0)))
                     success_world).
Proof.
  apply (awg_switch_writes hdawg 0
           (SchemaEntry "/DEV8006/AWGS/0/ENABLE" "Integer (64 bit)"
              (PropText "Read, Write") None "Activates the sequencer." "None")
           (BoundParameter
              (Some (_setter "/DEV8006/AWGS/0/ENABLE" "Integer (64 bit)"))
              (Some (_getter "/DEV8006/AWGS/0/ENABLE" "Integer (64 bit)"))
              None "Activates the sequencer." "None")).
  - vm_compute. reflexivity.
  - reflexivity.
  - reflexivity.
  - reflexivity.
Defined.

(** X15: when "system_awg_channelgrouping" is bound to a writable
    enumerated node, setting the grouping to one of the integers of its
    options is exactly one integer write of it to that node, and setting
    it to any other integer raises without a call to the session. *)
Theorem channel_grouping_is_validated (self : gmap string bound_parameter)
    (parameter : schema_entry) (options : list (string * string))
    (ks : list Z) (p : bound_parameter) (group : Z) (w : world) :
  self !! "system_awg_channelgrouping" = Some p ->
  bind_entry parameter = Ok ("system_awg_channelgrouping", p) ->
  Type_ parameter = "Integer (enumerated)" ->
  Options parameter = Some options ->
  rmap_all int (map fst options) = Ok ks ->
  py_in "Write" (Properties parameter) = true ->
  (In group ks ->
   set_channel_grouping self (PyInt group) w
   = Returns tt (log (Call daq setInt (Node parameter) (Some (PyInt group))) w))
  /\ (~ In group ks ->
      set_channel_grouping self (PyInt group) w = Raises ValidationError w).
Proof.
  intros Hself Hbind Htype Hopt Hks Hwrite.
  unfold set_channel_grouping, instrument_set. rewrite Hself.
  unfold bind_entry in Hbind.
  rewrite Htype, Hopt, Hks, Hwrite, String.eqb_refl in Hbind.
  cbn [rbind] in Hbind. injection Hbind as _ <-.
  unfold parameter_set. cbn [set_cmd vals]. split; intros Hgroup.
  - apply validate_enum in Hgroup. rewrite Hgroup. reflexivity.
  - destruct (validate (Enum ks) (PyInt group)) eqn:Hv; [|reflexivity].
    apply validate_enum in Hv. contradiction.
Qed.

Lemma channel_grouping_is_validated_witness :
  set_channel_grouping hdawg (PyInt 2) success_world
  = Returns tt (log (Call daq setInt "/DEV8006/SYSTEM/AWG/CHANNELGROUPING"
                       (Some (PyInt 2))) success_world).
Proof.
  refine (proj1 (channel_grouping_is_validated hdawg channelgrouping_entry
                   [("0", "groups_of_2"); ("1", "groups_of_4"); ("2", "groups_of_8")]
                   [0; 1; 2]%Z
                   (BoundParameter
                      (Some (_setter "/DEV8006/SYSTEM/AWG/CHANNELGROUPING"
                                     "Integer (enumerated)"))
                      (Some (_getter "/DEV8006/SYSTEM/AWG/CHANNELGROUPING"
                                     "Integer (enumerated)"))
                      (Some (Enum [0; 1; 2]%Z))
                      "Sets the channel grouping mode of the device." "None")
                   2 success_world _ _ _ _ _ _) _).
  - vm_compute. reflexivity.
  - reflexivity.
  - reflexivity.
  - reflexivity.
  - reflexivity.
  - reflexivity.
  - simpl. lia.
Defined.

(** X16: when the index and the data of the waveform of sequencer n are
    bound to a writable 64-bit integer node and a writable vector node,
    uploading a waveform is, in this order, one integer write of the index,
    one synchronization of the session and one vector write of the samples,
    and nothing else. *)
Theorem upload_waveform_writes_in_order (self : gmap string bound_parameter)
    (awg_number : Z) (waveform index : pyval)
    (index_entry data_entry : schema_entry) (pi pd : bound_parameter) (w : world) :
  self !! awg_parameter awg_number "_waveform_index" = Some pi ->
  bind_entry index_entry = Ok (awg_parameter awg_number "_waveform_index", pi) ->
  Type_ index_entry = "Integer (64 bit)" ->
  py_in "Write" (Properties index_entry) = true ->
  self !! awg_parameter awg_number "_waveform_data" = Some pd ->
  bind_entry data_entry = Ok (awg_parameter awg_number "_waveform_data", pd) ->
  Type_ data_entry = "ZIVectorData" ->
  py_in "Write" (Properties data_entry) = true ->
  upload_waveform self awg_number waveform index w
  = Returns tt
      (extend [Call daq setInt (Node index_entry) (Some index);
               Sync;
               Call daq vectorWrite (Node data_entry) (Some waveform)] w).
Proof.
  intros Hi Hbi Hti Hwi Hd Hbd Htd Hwd.
  assert (Hnei : Type_ index_entry <> "Integer (enumerated)")
    by (rewrite Hti; discriminate).
  assert (Hned : Type_ data_entry <> "Integer (enumerated)")
    by (rewrite Htd; discriminate).
  unfold upload_waveform.
  change (format "awgs_{}_waveform_index" [str_of_Z awg_number])
    with (Ok (awg_parameter awg_number "_waveform_index")).
  change (format "awgs_{}_waveform_data" [str_of_Z awg_number])
    with (Ok (awg_parameter awg_number "_waveform_data")).
  unfold lift, bind, ret.
  rewrite (instrument_set_bound self _ index_entry pi _ Hi Hbi Hwi Hnei).
  rewrite (instrument_set_bound self _ data_entry pd _ Hd Hbd Hwd Hned).
  rewrite Hti, Htd. unfold _setter, call_write, call_sync, log, extend.
  cbn. now rewrite <- !app_assoc.
Qed.

Lemma upload_waveform_writes_in_order_witness :
  upload_waveform hdawg 0 (PyList [PyInt 1; PyInt (-1)]) (PyInt 3) success_world
  = Returns tt
      (extend [Call daq setInt "/DEV8006/AWGS/0/WAVEFORM/INDEX" (Some (PyInt 3));
               Sync;
               Call daq vectorWrite "/DEV8006/AWGS/0/WAVEFORM/DATA"
                    (Some (PyList [PyInt 1; PyInt (-1)]))] success_world).
Proof.
  apply (upload_waveform_writes_in_order hdawg 0 _ _
           (SchemaEntry "/DEV8006/AWGS/0/WAVEFORM/INDEX" "Integer (64 bit)"
              (PropText "Read, Write") None "Index of the waveform." "None")
           (SchemaEntry "/DEV8006/AWGS/0/WAVEFORM/DATA" "ZIVectorData"
              (PropText "Read, Write") None "Samples of the waveform." "None")
           (BoundParameter
              (Some (_setter "/DEV8006/AWGS/0/WAVEFORM/INDEX" "Integer (64 bit)"))
              (Some (_getter "/DEV8006/AWGS/0/WAVEFORM/INDEX" "Integer (64 bit)"))
              None "Index of the waveform." "None")
           (BoundParameter
              (Some (_setter "/DEV8006/AWGS/0/WAVEFORM/DATA" "ZIVectorData"))
              (Some (_getter "/DEV8006/AWGS/0/WAVEFORM/DATA" "ZIVectorData"))
              None "Samples of the waveform." "None")).
  - vm_compute. reflexivity.
  - reflexivity.
  - reflexivity.
  - reflexivity.
  - vm_compute. reflexivity.
  - reflexivity.
  - reflexivity.
  - reflexivity.
Defined.

(** X17: when the derived names of the entries are pairwise distinct,
    a binding that completes registers every entry: under the name of each
    entry the registry holds the accessor built from that entry. *)
Theorem distinct_names_are_all_registered
    (parameters : list (string * schema_entry))
    (self self' : gmap string bound_parameter) :
  create_parameters_from_node_tree parameters self = (Ok tt, self') ->
  NoDup (map derived_name (map snd parameters)) ->
  forall parameter name p,
    In parameter (map snd parameters) ->
    bind_entry parameter = Ok (name, p) ->
    self' !! name = Some p.
Proof.
  unfold create_parameters_from_node_tree.
  generalize (map snd parameters) as values. clear parameters.
  intros values. revert self.
  induction values as [|x values IH]; intros self H Hnodup e n p Hin Hbind;
    [contradiction|].
  cbn [bind_values] in H.
  destruct (bind_entry x) as [[nx px]|err] eqn:Hx; [|discriminate].
  cbn [map] in Hnodup. apply NoDup_cons in Hnodup as [Hfresh Hnodup].
  destruct Hin as [<-|Hin].
  - rewrite Hx in Hbind. injection Hbind as <- <-.
    destruct (bind_values_registry values _ self' nx H) as [_ Hkeep].
    rewrite Hkeep; [apply lookup_insert_eq|].
    apply List.Forall_forall. intros y Hy Heq. apply Hfresh.
    apply bind_entry_name in Hx. subst nx. rewrite <- Heq.
    apply list_elem_of_In, in_map, Hy.
  - apply (IH _ H Hnodup e n p Hin Hbind).
Qed.

Lemma distinct_names_are_all_registered_witness :
  hdawg !! "awgs_0_waveform_data"
  = Some (BoundParameter
            (Some (_setter "/DEV8006/AWGS/0/WAVEFORM/DATA" "ZIVectorData"))
            (Some (_getter "/DEV8006/AWGS/0/WAVEFORM/DATA" "ZIVectorData"))
            None "Samples of the waveform." "None").
Proof.
  apply (distinct_names_are_all_registered hdawg_tree ∅ hdawg eq_refl)
    with (parameter := SchemaEntry "/DEV8006/AWGS/0/WAVEFORM/DATA" "ZIVectorData"
                         (PropText "Read, Write") None
                         "Samples of the waveform." "None").
  - apply (bool_decide_unpack _). vm_compute. exact I.
  - simpl. tauto.
  - reflexivity.
Defined.

(** ** What an upload touches *)

Lemma extend_twice (evs evs' : list event) (w : world) :
  extend evs' (extend evs w) = extend (evs ++ evs') w.
Proof. unfold extend. simpl. now rewrite <- app_assoc. Qed.

Lemma module_only_ret {A} (a : A) : module_only (ret a).
Proof. intros w. exists []. split; [now rewrite extend_nil | reflexivity]. Qed.

Lemma module_only_raise {A} (e : exn) : module_only (@raise A e).
Proof. intros w. exists []. split; [now rewrite extend_nil | reflexivity]. Qed.

Lemma module_only_bind {A B} (c : M A) (k : A -> M B) :
  module_only c -> (forall a, module_only (k a)) -> module_only (bind c k).
Proof.
  intros Hc Hk w. unfold bind. specialize (Hc w).
  destruct (c w) as [a w1|e w1|]; [| exact Hc | exact I].
  destruct Hc as [evs1 [-> Hq1]]. specialize (Hk a (extend evs1 w)).
  destruct (k a (extend evs1 w)) as [b w2|e w2|]; [| | exact I];
    destruct Hk as [evs2 [-> Hq2]]; exists (evs1 ++ evs2)%list;
    (split; [apply extend_twice | now rewrite forallb_app, Hq1, Hq2]).
Qed.

Lemma module_only_event {A} (a : world -> A) (e : event) :
  module_or_clock e = true ->
  module_only (fun w => Returns (a w) (log e w)).
Proof.
  intros He w. exists [e]. split; [reflexivity|].
  simpl. now rewrite He.
Qed.

Lemma module_only_while (fuel : nat) (cond : M bool) (body : M unit) :
  module_only cond -> module_only body -> module_only (while fuel cond body).
Proof.
  intros Hcond Hbody. induction fuel as [|fuel IH]; [intros w; exact I|].
  cbn [while]. apply module_only_bind; [exact Hcond|].
  intros [|]; [|apply module_only_ret].
  apply module_only_bind; [exact Hbody | intros _; exact IH].
Qed.

Lemma upload_after_submission_module_only (fuel : nat) :
  module_only (upload_after_submission fuel).
Proof.
  assert (Hint : module_only (call_getInt awg_module "awgModule/compiler/status"))
    by (apply (module_only_event
                 (fun w => int_reply w awg_module "awgModule/compiler/status"
                             (calls_so_far awg_module getInt
                                "awgModule/compiler/status" (trace w))));
        reflexivity).
  assert (Hsleep : module_only (sleep 0.1))
    by (apply (module_only_event (fun _ => tt)); reflexivity).
  unfold upload_after_submission. apply module_only_bind.
  { apply module_only_while; [|exact Hsleep].
    apply module_only_bind; [exact Hint | intros s; apply module_only_ret]. }
  intros _. apply module_only_bind; [exact Hint|]. intros status.
  destruct (status =? 1)%Z.
  - apply module_only_bind; [|intros msg; apply module_only_raise].
    apply (module_only_event
             (fun w => string_reply w awg_module "awgModule/compiler/statusstring"
                         (calls_so_far awg_module getString
                            "awgModule/compiler/statusstring" (trace w)))).
    reflexivity.
  - apply module_only_bind; [|intros _; exact Hint].
    apply module_only_while; [|exact Hsleep].
    apply module_only_bind; [|intros x; apply module_only_ret].
    apply (module_only_event
             (fun w => double_reply w awg_module "awgModule/progress"
                         (calls_so_far awg_module getDouble
                            "awgModule/progress" (trace w)))).
    reflexivity.
Qed.

Lemma upload_submits_first (fuel : nat) (awg_number : Z)
    (sequence_program : string) (w : world) :
  upload_sequence_program fuel awg_number sequence_program w
  = upload_after_submission fuel
      (extend [Call awg_module set "awgModule/index" (Some (PyInt awg_number));
               Call awg_module set "awgModule/compiler/sourcestring"
                    (Some (PyStr sequence_program))] w).
Proof.
  unfold upload_sequence_program.
  rewrite <- (extend_nil w) at 1.
  rewrite (bind_returns _ _ _ _ _ (call_write_extend _ _ _ _ _ _)).
  rewrite (bind_returns _ _ _ _ _ (call_write_extend _ _ _ _ _ _)).
  reflexivity.
Qed.

(** X18: an upload that comes back, with a result or an error, has first
    sent the index and the program to the compiler module and then only
    called that module and slept: it makes no call to the device session
    and leaves the files and the answers of the environment as they were. *)
Theorem upload_touches_only_the_module (fuel : nat) (awg_number : Z)
    (sequence_program : string) (w : world) :
  match upload_sequence_program fuel awg_number sequence_program w with
  | Returns _ w' | Raises _ w' =>
      exists evs,
        w' = extend ([Call awg_module set "awgModule/index"
                           (Some (PyInt awg_number));
                      Call awg_module set "awgModule/compiler/sourcestring"
                           (Some (PyStr sequence_program))] ++ evs) w
        /\ forallb module_or_clock evs = true
  | OutOfFuel => True
  end.
Proof.
  rewrite upload_submits_first.
  pose proof (upload_after_submission_module_only fuel
                (extend [Call awg_module set "awgModule/index"
                              (Some (PyInt awg_number));
                         Call awg_module set "awgModule/compiler/sourcestring"
                              (Some (PyStr sequence_program))] w)) as H.
  destruct (upload_after_submission fuel _) as [a w'|e w'|]; [| |exact I];
    destruct H as [evs [-> Hq]]; exists evs;
    (split; [apply extend_twice | exact Hq]).
Qed.

(** ** Waveforms of equal length *)

Lemma min_length_all {A} (n : nat) (others : list (list A)) :
  Forall (fun s => length s = n) others -> min_length n others = n.
Proof.
  induction 1 as [|s l Hs Hl IH]; [reflexivity|].
  simpl. rewrite IH, Hs. apply Nat.min_id.
Qed.

Lemma shortest_all {A} (n : nat) (seqs : list (list A)) :
  seqs <> [] -> Forall (fun s => length s = n) seqs -> shortest seqs = n.
Proof.
  intros Hne Hall. destruct seqs as [|first others]; [contradiction|].
  inversion Hall as [|? ? Hfirst Hothers]; subst.
  unfold shortest. now apply min_length_all.
Qed.

Lemma zip_star_length {A} (seqs : list (list A)) :
  length (zip_star seqs) = shortest seqs.
Proof.
  destruct seqs as [|first others]; [reflexivity | apply zip_rounds_length].
Qed.

Lemma zip_star_row_length {A} (seqs : list (list A)) :
  Forall (fun row => length row = length seqs) (zip_star seqs).
Proof.
  apply Forall_lookup. intros i row Hrow.
  apply zip_star_lookup in Hrow. symmetry. now apply Forall2_length in Hrow.
Qed.

(** X19: for one or more waveforms of the same, non-zero length the rows
    written are as many as the samples of a waveform, and transposing the
    rows gives the waveforms back: no sample is lost or moved. *)
Theorem equal_lengths_lose_nothing {A : Type} (waveforms : list (list A))
    (n : nat) :
  waveforms <> [] ->
  0 < n ->
  Forall (fun wf => length wf = n) waveforms ->
  length (zip_star waveforms) = n
  /\ zip_star (zip_star waveforms) = waveforms.
Proof.
  intros Hne Hn Hall.
  assert (Hrows : length (zip_star waveforms) = n)
    by (rewrite zip_star_length; now apply shortest_all).
  split; [exact Hrows|].
  assert (Hrows_ne : zip_star waveforms <> [])
    by (intros E; rewrite E in Hrows; simpl in Hrows; lia).
  assert (Hcols : length (zip_star (zip_star waveforms)) = length waveforms).
  { rewrite zip_star_length. apply shortest_all; [exact Hrows_ne|].
    apply zip_star_row_length. }
  apply list_eq. intros j.
  destruct (waveforms !! j) as [wf|] eqn:Hwf.
  - assert (Hj : j < length (zip_star (zip_star waveforms)))
      by (rewrite Hcols; now apply (lookup_lt_Some waveforms j wf)).
    apply lookup_lt_is_Some in Hj as [col Hcol]. rewrite Hcol. f_equal.
    pose proof (zip_star_lookup _ _ _ Hcol) as Hcol_rows.
    assert (Hwf_len : length wf = n).
    { rewrite Forall_lookup in Hall. now apply (Hall j). }
    apply list_eq. intros i.
    destruct (zip_star waveforms !! i) as [row|] eqn:Hrow.
    + destruct (Forall2_lookup_l _ _ _ _ _ Hcol_rows Hrow) as [y [Hy Hrowj]].
      pose proof (zip_star_lookup _ _ _ Hrow) as Hrow_wfs.
      destruct (Forall2_lookup_l _ _ _ _ _ Hrow_wfs Hwf) as [x [Hx Hwfi]].
      rewrite Hy, Hwfi. congruence.
    + apply lookup_ge_None in Hrow.
      rewrite (proj2 (lookup_ge_None wf i)) by lia.
      apply lookup_ge_None. apply Forall2_length in Hcol_rows. lia.
  - apply lookup_ge_None. apply lookup_ge_None in Hwf. lia.
Qed.

Lemma equal_lengths_lose_nothing_witness :
  length (zip_star [[1; 2; 3]; [4; 5; 6]]%Z) = 3
  /\ zip_star (zip_star [[1; 2; 3]; [4; 5; 6]]%Z) = [[1; 2; 3]; [4; 5; 6]]%Z.
Proof.
  apply (equal_lengths_lose_nothing [[1; 2; 3]; [4; 5; 6]]%Z 3).
  - discriminate.
  - lia.
  - repeat constructor.
Defined.

(** ** Where the waveform file goes *)

Lemma ends_with_slash_app (a : string) (c : ascii) (b : string) :
  ends_with_slash (a +:+ String c b) = ends_with_slash (String c b).
Proof.
  induction a as [|x a IH]; [reflexivity|].
  change (String x a +:+ String c b) with (String x (a +:+ String c b)).
  cbn [ends_with_slash]. rewrite IH.
  destruct a; reflexivity.
Qed.

Lemma startswith_slash_app (a b : string) :
  a <> EmptyString -> startswith "/" (a +:+ b) = startswith "/" a.
Proof. destruct a as [|c a]; [congruence|]. intros _. reflexivity. Qed.

Lemma path_join_relative (a b : string) :
  a <> EmptyString -> ends_with_slash a = false -> startswith "/" b = false ->
  path_join a b = a +:+ "/" +:+ b.
Proof.
  intros Ha Hslash Hb. unfold path_join. rewrite Hb, Hslash.
  apply String.eqb_neq in Ha. now rewrite Ha.
Qed.

Lemma app_nonempty (a : string) (c : ascii) (b : string) :
  a +:+ String c b <> EmptyString.
Proof. destruct a; discriminate. Qed.

(** X20: for a module directory that is not empty and does not end in a
    slash, a wave name that does not start with a slash is exported to
    <directory>/awg/waves/<name>.csv; a wave name that starts with a slash
    is exported to <name>.csv, outside the wave directory. *)
Theorem csv_file_location (w : world) (wave_name : string) :
  let directory :=
    string_reply w awg_module directory_node
      (calls_so_far awg_module getString directory_node (trace w)) in
  directory <> EmptyString ->
  ends_with_slash directory = false ->
  (startswith "/" wave_name = false ->
   csv_path w wave_name = directory +:+ "/awg/waves/" +:+ wave_name +:+ ".csv")
  /\ (startswith "/" wave_name = true ->
      csv_path w wave_name = wave_name +:+ ".csv").
Proof.
  intros directory Hne Hslash.
  unfold csv_path, wave_directory. fold directory.
  rewrite (path_join_relative directory "awg") by (assumption || reflexivity).
  rewrite (path_join_relative (directory +:+ "/" +:+ "awg") "waves");
    [| apply app_nonempty | simpl; now rewrite ends_with_slash_app | reflexivity].
  split; intros Hname.
  - rewrite path_join_relative.
    + now rewrite !app_assoc_str.
    + apply app_nonempty.
    + rewrite app_assoc_str. simpl. now rewrite ends_with_slash_app.
    + destruct wave_name as [|c name]; [reflexivity|].
      now rewrite startswith_slash_app by discriminate.
  - unfold path_join.
    destruct wave_name as [|c name]; [discriminate|].
    rewrite startswith_slash_app by discriminate. now rewrite Hname.
Qed.

Lemma csv_file_location_witness :
  csv_path success_world "pulse" = "/data/awg/waves/pulse.csv"
  /\ csv_path success_world "/tmp/pulse" = "/tmp/pulse.csv".
Proof.
  pose proof (csv_file_location success_world "pulse") as H1.
  pose proof (csv_file_location success_world "/tmp/pulse") as H2.
  cbv zeta in H1, H2. split.
  - apply H1; [discriminate | reflexivity | reflexivity].
  - apply H2; [discriminate | reflexivity | reflexivity].
Defined.
